(** * node-twitch: the authentication and request-dispatch layer of [TwitchApi]

    A shallow embedding of [src/index.js].  JavaScript values that cross the
    library boundary (JSON bodies, tokens, request options) are a small
    inductive type; objects are ordered association lists, because property
    order is observable; the instance, the heap of caller-owned objects and
    the log of outbound effects are threaded through a state-and-exception
    monad.  The network is an oracle answering the n-th request.  The
    methods of the refresh path are embedded a second time with their
    awaits made explicit, to let several calls be in flight at once. *)

From Stdlib Require Import ZArith Ascii String Lia.
From stdpp Require Import base strings list gmap pretty.

Set Warnings "-register-all".
Local Open Scope string_scope.

(** ** JavaScript values *)

(** Numbers are kept by their canonical decimal rendering
    ([Number.prototype.toString]); the library never does arithmetic on a
    number that comes from outside, it only prints, tests and compares
    them. *)
Inductive jsval : Type :=
| JUndefined
| JNull
| JBool (b : bool)
| JNum (repr : string)
| JStr (s : string)
| JArr (elems : list jsval)
| JObj (fields : list (string * jsval)).

(** A plain object: own, enumerable, configurable properties in insertion
    order. *)
Abbreviation obj := (list (string * jsval)).

Fixpoint obj_get (k : string) (o : obj) : option jsval :=
  match o with
  | [] => None
  | (k', v) :: o' => if String.eqb k k' then Some v else obj_get k o'
  end.

(** [o.k = v]: an existing property keeps its position. *)
Fixpoint obj_set (k : string) (v : jsval) (o : obj) : obj :=
  match o with
  | [] => [(k, v)]
  | (k', v') :: o' =>
      if String.eqb k k' then (k, v) :: o' else (k', v') :: obj_set k v o'
  end.

(** [delete o.k] *)
Fixpoint obj_delete (k : string) (o : obj) : obj :=
  match o with
  | [] => []
  | (k', v) :: o' =>
      if String.eqb k k' then obj_delete k o' else (k', v) :: obj_delete k o'
  end.

(** [Object.assign(target, source)] on plain objects. *)
Definition obj_assign (target source : obj) : obj :=
  fold_left (fun t kv => obj_set (fst kv) (snd kv) t) source target.

Definition has_own (k : string) (o : obj) : bool :=
  match obj_get k o with Some _ => true | None => false end.

(** ** Built-in conversions *)

Definition join_elem (to_s : jsval -> string) (v : jsval) : string :=
  match v with
  | JUndefined | JNull => ""
  | _ => to_s v
  end.

(** [String(v)]; an array joins its elements with a comma, a plain object
    prints as [[object Object]]. *)
Fixpoint ToString (v : jsval) : string :=
  match v with
  | JUndefined => "undefined"
  | JNull => "null"
  | JBool true => "true"
  | JBool false => "false"
  | JNum r => r
  | JStr s => s
  | JArr l =>
      (fix join (l : list jsval) : string :=
         match l with
         | [] => ""
         | [x] => join_elem ToString x
         | x :: r => join_elem ToString x +:+ "," +:+ join r
         end) l
  | JObj _ => "[object Object]"
  end.

(** [!!v] *)
Definition truthy (v : jsval) : bool :=
  match v with
  | JUndefined | JNull => false
  | JBool b => b
  | JNum r => negb (String.eqb r "0" || String.eqb r "NaN")
  | JStr s => negb (String.eqb s "")
  | JArr _ | JObj _ => true
  end.

(** *** Characters *)

Definition code (c : ascii) : N := N_of_ascii c.

Definition between (lo hi : N) (c : ascii) : bool :=
  ((lo <=? code c) && (code c <=? hi))%N.

Definition is_digit : ascii -> bool := between 48 57.
Definition is_upper : ascii -> bool := between 65 90.
Definition is_lower : ascii -> bool := between 97 122.
Definition is_letter (c : ascii) : bool := is_upper c || is_lower c.
Definition is_hex_digit (c : ascii) : bool :=
  is_digit c || between 65 70 c || between 97 102 c.
Definition is_octal_digit : ascii -> bool := between 48 55.
Definition is_binary_digit : ascii -> bool := between 48 49.
Definition is_sign (c : ascii) : bool := Ascii.eqb c "+" || Ascii.eqb c "-".
Definition is_exponent_indicator (c : ascii) : bool :=
  Ascii.eqb c "e" || Ascii.eqb c "E".

(** *** [isNaN]

    [isNaN(v)] is [Number(v)] being NaN.  For a string that is: the string
    is not a StringNumericLiteral of ECMA-262 (optional white space around
    an optionally signed decimal literal, [Infinity], or a [0x], [0o], [0b]
    integer; the empty and the blank string convert to 0).  Strings hold the
    UTF-8 bytes of the JavaScript string. *)

(** Byte length of the StrWhiteSpaceChar at the front of [s], 0 if none. *)
Definition ws_len (s : string) : nat :=
  match s with
  | String c r =>
      if between 9 13 c || Ascii.eqb c " " then 1
      else if (code c <? 128)%N then 0
      else
        match r with
        | String d r' =>
            if (code c =? 194)%N && (code d =? 160)%N then 2        (* U+00A0 *)
            else
              match r' with
              | String e _ =>
                  let c3 := (code c, code d, code e) in
                  match c3 with
                  | (225, 154, 128)%N => 3                            (* U+1680 *)
                  | (226, 128, x)%N =>
                      if ((128 <=? x) && (x <=? 138))%N then 3        (* U+2000-200A *)
                      else if ((x =? 168) || (x =? 169) || (x =? 175))%N
                           then 3                                      (* U+2028/9, U+202F *)
                      else 0
                  | (226, 129, 159)%N => 3                            (* U+205F *)
                  | (227, 128, 128)%N => 3                            (* U+3000 *)
                  | (239, 187, 191)%N => 3                            (* U+FEFF *)
                  | _ => 0
                  end
              | EmptyString => 0
              end
        | EmptyString => 0
        end
  | EmptyString => 0
  end.

Fixpoint drop_bytes (n : nat) (s : string) : string :=
  match n, s with
  | S n', String _ r => drop_bytes n' r
  | _, _ => s
  end.

Fixpoint skip_ws_fuel (fuel : nat) (s : string) : string :=
  match fuel with
  | O => s
  | S fuel' =>
      match ws_len s with
      | O => s
      | n => skip_ws_fuel fuel' (drop_bytes n s)
      end
  end.

Definition skip_ws (s : string) : string := skip_ws_fuel (String.length s) s.

Definition all_ws (s : string) : bool := String.eqb (skip_ws s) "".

(** Longest prefix of characters satisfying [p]: its length and the rest. *)
Fixpoint span (p : ascii -> bool) (s : string) : nat * string :=
  match s with
  | String c r =>
      if p c then let '(n, t) := span p r in (S n, t) else (O, s)
  | EmptyString => (O, s)
  end.

Fixpoint strip_prefix (p s : string) : option string :=
  match p, s with
  | EmptyString, _ => Some s
  | String a p', String b s' =>
      if Ascii.eqb a b then strip_prefix p' s' else None
  | String _ _, EmptyString => None
  end.

(** ExponentPart_opt, then white space to the end. *)
Definition exponent_then_ws (s : string) : bool :=
  match s with
  | String c r =>
      if is_exponent_indicator c then
        let r1 := match r with
                  | String d r' => if is_sign d then r' else r
                  | EmptyString => r
                  end in
        let '(n, r2) := span is_digit r1 in
        (0 <? n)%nat && all_ws r2
      else all_ws s
  | EmptyString => true
  end.

Definition StrUnsignedDecimalLiteral (s : string) : bool :=
  match strip_prefix "Infinity" s with
  | Some r => all_ws r
  | None =>
      let '(n, r) := span is_digit s in
      match r with
      | String "." r1 =>
          let '(m, r2) := span is_digit r1 in
          (0 <? n + m)%nat && exponent_then_ws r2
      | _ => (0 <? n)%nat && exponent_then_ws r
      end
  end.

Definition StrDecimalLiteral (s : string) : bool :=
  match s with
  | String c r => if is_sign c then StrUnsignedDecimalLiteral r
                  else StrUnsignedDecimalLiteral s
  | EmptyString => false
  end.

Definition radix_digits_then_ws (p : ascii -> bool) (s : string) : bool :=
  let '(n, r) := span p s in (0 <? n)%nat && all_ws r.

Definition StrNumericLiteral (s : string) : bool :=
  match s with
  | String z (String c r) =>
      if Ascii.eqb z "0" && (Ascii.eqb c "x" || Ascii.eqb c "X")
      then radix_digits_then_ws is_hex_digit r
      else if Ascii.eqb z "0" && (Ascii.eqb c "o" || Ascii.eqb c "O")
      then radix_digits_then_ws is_octal_digit r
      else if Ascii.eqb z "0" && (Ascii.eqb c "b" || Ascii.eqb c "B")
      then radix_digits_then_ws is_binary_digit r
      else StrDecimalLiteral s
  | _ => StrDecimalLiteral s
  end.

(** [Number(s)] is NaN. *)
Definition string_isNaN (s : string) : bool :=
  match skip_ws s with
  | EmptyString => false
  | t => negb (StrNumericLiteral t)
  end.

(** [isNaN(v)]: arrays and objects are first converted to strings. *)
Definition isNaN (v : jsval) : bool :=
  match v with
  | JUndefined => true
  | JNull | JBool _ => false
  | JNum r => String.eqb r "NaN"
  | JStr s => string_isNaN s
  | JArr _ | JObj _ => string_isNaN (ToString v)
  end.

(** *** The regular expression [/\bValid OAuth token with/i] *)

Definition is_word_char (c : ascii) : bool :=
  is_letter c || is_digit c || Ascii.eqb c "_".

Definition to_lower (c : ascii) : ascii :=
  if is_upper c then ascii_of_N (code c + 32) else c.

(** [p] is in lower case. *)
Fixpoint prefix_ignore_case (p s : string) : bool :=
  match p, s with
  | EmptyString, _ => true
  | String a p', String b s' =>
      Ascii.eqb a (to_lower b) && prefix_ignore_case p' s'
  | String _ _, EmptyString => false
  end.

(** A match starts where the previous character is not a word character. *)
Fixpoint regexp_search (prev_is_word : bool) (s : string) : bool :=
  (negb prev_is_word && prefix_ignore_case "valid oauth token with" s)
  || match s with
     | String c r => regexp_search (is_word_char c) r
     | EmptyString => false
     end.

(** [regexp.test(v)] *)
Definition regexp_test (v : jsval) : bool := regexp_search false (ToString v).

(** *** [encodeURIComponent] *)

Definition is_uri_unreserved (c : ascii) : bool :=
  is_letter c || is_digit c
  || existsb (Ascii.eqb c) ["-"; "_"; "."; "!"; "~"; "*"; "'"; "("; ")"]%char.

Definition hex_digit (n : N) : ascii :=
  if (n <? 10)%N then ascii_of_N (48 + n) else ascii_of_N (55 + n).

Fixpoint encodeURIComponent (s : string) : string :=
  match s with
  | EmptyString => EmptyString
  | String c r =>
      if is_uri_unreserved c then String c (encodeURIComponent r)
      else String "%" (String (hex_digit (code c / 16))
                         (String (hex_digit (code c mod 16)) (encodeURIComponent r)))
  end.

(** ** Errors, responses and the effect log *)

(** A thrown [Error] object: its [name] and its [message]. *)
Record exn : Type := Exn { exn_name : string; exn_message : string }.

Definition Error (msg : string) : exn := Exn "Error" msg.
Definition TypeError (msg : string) : exn := Exn "TypeError" msg.
Definition SyntaxError (msg : string) : exn := Exn "SyntaxError" msg.
Definition ReferenceError (msg : string) : exn := Exn "ReferenceError" msg.

(** [String(err)], as [Error.prototype.toString] prints it. *)
Definition exn_to_string (e : exn) : string :=
  if String.eqb (exn_message e) "" then exn_name e
  else exn_name e +:+ ": " +:+ exn_message e.

(** The full response object ([resolveWithFullResponse: true]).  [body] is
    what the request library hands over: the text of the answer, or, for a
    request made with [json: true], the value that text parses to. *)
Record response : Type := Response {
  statusCode : Z;
  statusMessage : string;
  body : jsval
}.

(** How a request settles; with [simple: false] every HTTP status resolves,
    only a transport failure rejects. *)
Inductive outcome : Type :=
| Resolved (r : response)
| Rejected (err : exn).

(** The [callback] argument of a method: absent (any falsy value), a
    function of the host application, or a truthy value that cannot be
    called. *)
Inductive callback_t : Type :=
| NoCallback
| Function (name : string)
| NotCallable.

Inductive arg : Type :=
| ArgValue (v : jsval)
| ArgResponse (r : response).

(** A call that is started and not awaited: it runs after its caller has
    returned. *)
Inductive task : Type :=
| GetTask (endpoint : string) (cb : callback_t)
| InitAppToken.

Inductive event : Type :=
| Request (options : obj)
| ConsoleError (text : string)
| ConsoleLog (text : string)
| Emit (name : string) (args : list jsval)
| Invoke (f : string) (args : list arg)
| SetApiUser
| Detached (t : task).

(** ** The instance and the machine *)

Record TwitchApi : Type := MkTwitchApi {
  isApp : bool;
  access_token : jsval;
  refresh_token : jsval;
  client_id : jsval;
  client_secret : jsval;
  base : string;
  refresh_attempts : nat;
  user : jsval;
  listeners : list string            (* [eventNames()] *)
}.

Definition set_access_token (v : jsval) (t : TwitchApi) : TwitchApi :=
  MkTwitchApi (isApp t) v (refresh_token t) (client_id t) (client_secret t)
           (base t) (refresh_attempts t) (user t) (listeners t).

Definition set_refresh_token (v : jsval) (t : TwitchApi) : TwitchApi :=
  MkTwitchApi (isApp t) (access_token t) v (client_id t) (client_secret t)
           (base t) (refresh_attempts t) (user t) (listeners t).

Definition set_refresh_attempts (n : nat) (t : TwitchApi) : TwitchApi :=
  MkTwitchApi (isApp t) (access_token t) (refresh_token t) (client_id t)
           (client_secret t) (base t) n (user t) (listeners t).

Definition set_user (v : jsval) (t : TwitchApi) : TwitchApi :=
  MkTwitchApi (isApp t) (access_token t) (refresh_token t) (client_id t)
           (client_secret t) (base t) (refresh_attempts t) v (listeners t).

Definition add_listener (ev : string) (t : TwitchApi) : TwitchApi :=
  MkTwitchApi (isApp t) (access_token t) (refresh_token t) (client_id t)
           (client_secret t) (base t) (refresh_attempts t) (user t)
           (listeners t ++ [ev]).

(** [self] is the instance, [heap] the objects the caller shares with the
    library, [requests] the number of requests issued so far, [trace] the
    effects in the order they happened. *)
Record machine : Type := Machine {
  self : TwitchApi;
  heap : gmap nat obj;
  requests : nat;
  trace : list event
}.

(** ** The monad of asynchronous methods

    An [async] method either returns, throws (its promise rejects), or is
    still awaiting when the fuel of the recursion runs out. *)
Inductive result (A : Type) : Type :=
| Ret (a : A)
| Throw (e : exn)
| Diverge.
Arguments Ret {A} a.
Arguments Throw {A} e.
Arguments Diverge {A}.

Definition M (A : Type) : Type := machine -> result A * machine.

Definition ret {A} (a : A) : M A := fun m => (Ret a, m).

Definition bind {A B} (c : M A) (k : A -> M B) : M B :=
  fun m =>
    match c m with
    | (Ret a, m') => k a m'
    | (Throw e, m') => (Throw e, m')
    | (Diverge, m') => (Diverge, m')
    end.

Definition throw {A} (e : exn) : M A := fun m => (Throw e, m).
Definition diverge {A} : M A := fun m => (Diverge, m).

(** [promise.catch(handler)] *)
Definition catch {A} (c : M A) (handler : exn -> M A) : M A :=
  fun m =>
    match c m with
    | (Throw e, m') => handler e m'
    | r => r
    end.

Notation "'let*' x ':=' c 'in' k" := (bind c (fun x => k))
  (at level 10, x name, c at level 100, k at level 200).
Notation "c ';;' k" := (bind c (fun _ => k))
  (at level 100, k at level 200, right associativity).

Definition this : M TwitchApi := fun m => (Ret (self m), m).

Definition update (f : TwitchApi -> TwitchApi) : M unit :=
  fun m => (Ret tt, Machine (f (self m)) (heap m) (requests m) (trace m)).

Definition log (e : event) : M unit :=
  fun m => (Ret tt, Machine (self m) (heap m) (requests m) (trace m ++ [e])).

Definition when (b : bool) (c : M unit) : M unit := if b then c else ret tt.

(** *** The heap of shared objects *)

Definition deref (l : nat) : M obj := fun m => (Ret (heap m !!! l), m).

Definition store (l : nat) (o : obj) : M unit :=
  fun m => (Ret tt, Machine (self m) (<[l := o]> (heap m)) (requests m) (trace m)).

(** [{}] *)
Definition alloc (o : obj) : M nat :=
  fun m => let l := fresh (dom (heap m)) in
           (Ret l, Machine (self m) (<[l := o]> (heap m)) (requests m) (trace m)).

(** *** Property access *)

Definition nullish (v : jsval) : bool :=
  match v with
  | JUndefined | JNull => true
  | _ => false
  end.

(** The value of [v.k] when [v] is neither [undefined] nor [null], for a
    property name [k] that no prototype defines. *)
Definition prop_value (v : jsval) (k : string) : jsval :=
  match v with
  | JObj o => default JUndefined (obj_get k o)
  | _ => JUndefined
  end.

(** [v.k] *)
Definition get_prop (v : jsval) (k : string) : M jsval :=
  if nullish v
  then throw (TypeError ("Cannot read properties of " +:+ ToString v
                         +:+ " (reading '" +:+ k +:+ "')"))
  else ret (prop_value v k).

(** [v[i]] *)
Definition get_index (v : jsval) (i : nat) : M jsval :=
  match v with
  | JUndefined | JNull =>
      throw (TypeError ("Cannot read properties of " +:+ ToString v
                        +:+ " (reading '" +:+ pretty i +:+ "')"))
  | JArr l => ret (default JUndefined (l !! i))
  | JObj o => ret (default JUndefined (obj_get (pretty i) o))
  | JStr s => ret (match String.get i s with
                   | Some c => JStr (String c EmptyString)
                   | None => JUndefined
                   end)
  | _ => ret JUndefined
  end.

(** An identifier that no enclosing scope declares. *)
Definition unbound_identifier {A} (x : string) : M A :=
  throw (ReferenceError (x +:+ " is not defined")).

(** Calling a value that is not a function. *)
Definition call_non_function {A} (what : string) : M A :=
  throw (TypeError (what +:+ " is not a function")).

Definition cb_truthy (cb : callback_t) : bool :=
  match cb with NoCallback => false | _ => true end.

(** [callback(args)]; what the host's function does is its own business. *)
Definition invoke (cb : callback_t) (args : list arg) : M unit :=
  match cb with
  | Function f => log (Invoke f args)
  | _ => call_non_function "callback"
  end.

(** A call whose promise is dropped. *)
Definition detach (t : task) : M unit := log (Detached t).

Definition nl : string := String "010" EmptyString.

(** ** Arguments of the public methods *)

(** [ids]: one string, or a list of strings. *)
Inductive ids_t : Type :=
| Single (id : string)
| Many (ids : list string).

(** An [options] argument: absent (any falsy value), a truthy value that
    is not an object, or a reference to an object of the caller. *)
Inductive options_arg : Type :=
| Absent
| NotAnObject
| Object (l : nat).

(** The [config] object of the constructor: the five properties the
    constructor reads.  The argument itself may be omitted, which is
    [None]. *)
Record config : Type := Config {
  cfg_isApp : jsval;
  cfg_access_token : jsval;
  cfg_refresh_token : jsval;
  cfg_client_id : jsval;
  cfg_client_secret : jsval
}.

(** ** The library *)

Section Library.

(** [util.inspect(v)], with which [EventEmitter] prints the payload of an
    error event that nobody listens for. *)
Variable inspect : jsval -> string.

(** [JSON.parse] applied to a string: the parsed value, or the message of
    the SyntaxError it throws. *)
Variable JSON_parse_text : string -> jsval + string.

(** [methods.parseOptions], the query encoder of [./methods]. *)
Variable parseOptions : obj -> string.

(** [methods.getLocalClientId()] and [methods.getLocalClientSecret()] of
    [./methods]: the value the call returns, or the error it throws (the
    lookup reads a local file, which may be missing). *)
Variables getLocalClientId getLocalClientSecret : jsval + exn.

(** [methods.setApiUser(config)] of [./methods]: the error it throws, if
    it throws. *)
Variable setApiUser : config -> option exn.

(** The network: how the n-th request of the run settles, given its
    options. *)
Variable network : nat -> obj -> outcome.

(** [JSON.parse(v)] converts [v] to a string first. *)
Definition JSON_parse (v : jsval) : M jsval :=
  match JSON_parse_text (ToString v) with
  | inl parsed => ret parsed
  | inr msg => throw (SyntaxError msg)
  end.

(** [request(options)] of request-promise-native. *)
Definition request (options : obj) : M response :=
  fun m =>
    let m' := Machine (self m) (heap m) (S (requests m))
                      (trace m ++ [Request options]) in
    match network (requests m) options with
    | Resolved r => (Ret r, m')
    | Rejected err => (Throw err, m')
    end.

(** *** The options of the outbound requests *)

Definition app_token_options (t : TwitchApi) : obj :=
  let data := [("client_id", client_id t);
               ("client_secret", client_secret t);
               ("grant_type", JStr "client_credentials")] in
  [("url", JStr "https://id.twitch.tv/oauth2/token");
   ("method", JStr "POST");
   ("json", JBool true);
   ("body", JObj data);
   ("headers", JObj [("Content-Type", JStr "application/json")]);
   ("resolveWithFullResponse", JBool true);
   ("simple", JBool false)].

Definition refresh_options (t : TwitchApi) : obj :=
  let data := [("client_id", client_id t);
               ("client_secret", client_secret t);
               ("grant_type", JStr "refresh_token");
               ("refresh_token",
                JStr (encodeURIComponent (ToString (refresh_token t))))] in
  [("url", JStr "https://id.twitch.tv/oauth2/token");
   ("method", JStr "POST");
   ("json", JBool true);
   ("body", JObj data);
   ("headers", JObj [("Content-Type", JStr "application/json")]);
   ("resolveWithFullResponse", JBool true);
   ("simple", JBool false)].

Definition validate_options (t : TwitchApi) : obj :=
  [("url", JStr "https://id.twitch.tv/oauth2/validate");
   ("headers", JObj [("Authorization",
                      JStr ("OAuth " +:+ ToString (access_token t)))]);
   ("resolveWithFullResponse", JBool true);
   ("simple", JBool false)].

Definition get_options (t : TwitchApi) (endpoint : string) : obj :=
  [("url", JStr (base t +:+ endpoint));
   ("method", JStr "GET");
   ("headers",
    JObj [("Client-ID", client_id t);
          ("Authorization", JStr ("Bearer " +:+ ToString (access_token t)))]);
   ("resolveWithFullResponse", JBool true);
   ("simple", JBool false)].

Definition post_options (t : TwitchApi) (endpoint : string) (data : jsval)
  : obj :=
  [("url", JStr (base t +:+ endpoint));
   ("method", JStr "POST");
   ("json", JBool true);
   ("body", data);
   ("headers",
    JObj [("Content-Type", JStr "application/json");
          ("Authorization", JStr ("Bearer " +:+ ToString (access_token t)));
          ("Client-ID", client_id t)]);
   ("resolveWithFullResponse", JBool true);
   ("simple", JBool false)].

(** *** Private methods *)

Definition _error {A} (err : string) : M A := throw (Error err).

Definition _isListeningFor (event : string) : M bool :=
  let* t := this in
  ret (existsb (String.eqb event) (listeners t)).

(** [this.emit(name, ...args)] of [EventEmitter]: listeners are the host's
    and are taken to return.  An ["error"] event nobody listens for is
    thrown: its payload, which is never an [Error] object here, is wrapped
    in an Error (code [ERR_UNHANDLED_ERROR]) whose message carries the
    payload as [util.inspect] prints it. *)
Definition emit (name : string) (args : list jsval) : M unit :=
  let* t := this in
  if existsb (String.eqb name) (listeners t) then log (Emit name args)
  else if String.eqb name "error"
  then throw (Error ("Unhandled error. ("
                       +:+ inspect (default JUndefined (head args)) +:+ ")"))
  else ret tt.

Definition _getAppAccessToken (callback : callback_t) : M jsval :=
  let* t := this in
  let options := app_token_options t in
  let* response := catch (request options)
                         (fun err => _error (exn_to_string err)) in
  let* body := JSON_parse (body response) in
  if cb_truthy callback
  then invoke callback [ArgValue body; ArgResponse response];; ret JUndefined
  else ret body.

Definition strict_equals_string (v : jsval) (s : string) : bool :=
  match v with
  | JStr s' => String.eqb s' s
  | _ => false
  end.

Definition _validate (callback : callback_t) : M jsval :=
  let* t := this in
  let options := validate_options t in
  let* response := catch (request options)
                         (fun err => _error (exn_to_string err)) in
  let* body := JSON_parse (body response) in
  let* message := get_prop body "message" in
  let valid := match statusCode response with
               | 200%Z => true
               | 401%Z => false
               | _ => false
               end in
  when (strict_equals_string message "missing authorization token")
       (_error (ToString message));;
  if cb_truthy callback
  then invoke callback [ArgValue (JBool valid)];; ret JUndefined
  else ret (JBool valid).

Definition _refresh (callback : callback_t) : M unit :=
  let* t := this in
  when (1 <? refresh_attempts t)%nat
       (_error "Refresh attempts have failed. Use the previously logged information as help.");;
  let options := refresh_options t in
  let* valid := _validate NoCallback in
  if truthy valid then ret tt
  else
    let* t := this in
    if isApp t then
      let* result := catch (_getAppAccessToken NoCallback)
                           (fun err => _error (exn_to_string err)) in
      let* token := get_prop result "access_token" in
      update (set_access_token token);;
      emit "refresh" [result];;
      when (cb_truthy callback) (invoke callback []);;
      ret tt
    else
      let* response := catch (request options)
                             (fun err => _error (exn_to_string err)) in
      let body := body response in
      let* access_token := get_prop body "access_token" in
      let* refresh_token := get_prop body "refresh_token" in
      when (truthy access_token) (update (set_access_token access_token));;
      when (truthy refresh_token) (update (set_refresh_token refresh_token));;
      let* listening := _isListeningFor "refresh" in
      when listening (emit "refresh" [body]);;
      when (cb_truthy callback) (invoke callback []);;
      let* t := this in
      update (set_refresh_attempts (refresh_attempts t + 1));;
      ret tt.

Definition http_error_text (verb url : string) (r : response) (message : jsval)
  : string :=
  nl +:+ verb +:+ " request to " +:+ url +:+ " failed:" +:+ nl
     +:+ pretty (statusCode r) +:+ " " +:+ statusMessage r +:+ ": "
     +:+ ToString message +:+ nl.

Definition http_error_object (r : response) (message : jsval) : jsval :=
  JObj [("type", JStr "http");
        ("code", JNum (pretty (statusCode r)));
        ("statusMessage", JStr (statusMessage r));
        ("message", message)].

(** One unit of fuel per call of [_get]. *)
Fixpoint _get (fuel : nat) (endpoint : string) (callback : callback_t)
  : M jsval :=
  match fuel with
  | O => diverge
  | S fuel' =>
      let* t := this in
      let url := base t +:+ endpoint in
      let options := get_options t endpoint in
      let* response := catch (request options)
                             (fun err => _error (exn_to_string err)) in
      let* body := JSON_parse (body response) in
      let status := statusCode response in
      let* message := get_prop body "message" in
      when (400 <=? status)%Z
           (let err_msg := http_error_text "Get" url response message in
            let err_obj := http_error_object response message in
            when (regexp_test message) (_error (ToString message));;
            log (ConsoleError err_msg);;
            let* listening := _isListeningFor "error" in
            when listening (emit "error" [err_obj]));;
      if (400 <=? status)%Z then
        _refresh NoCallback;;
        _get fuel' endpoint callback
      else if cb_truthy callback
      then invoke callback [ArgValue body; ArgResponse response];; ret JUndefined
      else ret body
  end.

(** A [jsval] is never a function, so calling one throws. *)
Definition call_jsval {A} (what : string) (f : jsval) : M A :=
  call_non_function what.

(** On 401 the source calls the field [this.refresh_token] with a closure
    that would re-post [(endpoint, callback)]; the call throws before the
    closure can run. *)
Definition _post (endpoint : string) (data : jsval) (callback : callback_t)
  : M jsval :=
  let* t := this in
  let url := base t +:+ endpoint in
  let options := post_options t endpoint data in
  let* response := catch (request options)
                         (fun err => _error (exn_to_string err)) in
  let* body := JSON_parse (body response) in
  let status := statusCode response in
  let* reparsed := JSON_parse body in
  let* message := get_prop reparsed "message" in
  when (400 <=? status)%Z
       (let err_msg := http_error_text "Post" url response message in
        let err_obj := http_error_object response message in
        log (ConsoleError err_msg);;
        emit "error" [err_obj]);;
  if (status =? 401)%Z then
    let* t := this in
    @call_jsval unit "this.refresh_token" (refresh_token t);;
    ret JUndefined
  else if cb_truthy callback
  then invoke callback [ArgValue body; ArgResponse response];; ret JUndefined
  else ret body.

(** *** Public methods *)

(** [ids.indexOf(x)] *)
Fixpoint indexOf_from (i : Z) (ids : list string) (x : string) : Z :=
  match ids with
  | [] => (-1)%Z
  | y :: ids' => if String.eqb y x then i else indexOf_from (i + 1)%Z ids' x
  end.

Definition indexOf (ids : list string) (x : string) : Z := indexOf_from 0 ids x.

(** [isNaN(id) ? "login" : "id"] *)
Definition id_type (id : jsval) : string :=
  if isNaN id then "login" else "id".

Definition users_query (ids : ids_t) : string :=
  match ids with
  | Single ids =>
      let type := id_type (JStr ids) in
      "?" +:+ type +:+ "=" +:+ ids
  | Many ids =>
      fold_left
        (fun query id =>
           let type := id_type (JStr id) in
           if (indexOf ids id =? 0)%Z
           then query +:+ "?" +:+ type +:+ "=" +:+ id
           else query +:+ "&" +:+ type +:+ "=" +:+ id)
        ids ""
  end.

Definition getUsers (fuel : nat) (ids : ids_t) (callback : callback_t)
  : M jsval :=
  let query := users_query ids in
  let endpoint := "/users" +:+ query in
  if cb_truthy callback
  then detach (GetTask endpoint callback);; ret JUndefined
  else _get fuel endpoint NoCallback.

Definition getCurrentUser (fuel : nat) (callback : callback_t) : M jsval :=
  let* t := this in
  when (isApp t)
       (_error "Cannot get the current user when using an application token. Use access_token and refresh_token instead.");;
  let endpoint := "/users" in
  if cb_truthy callback
  then detach (GetTask endpoint callback);; ret JUndefined
  else _get fuel endpoint NoCallback.




(** [user_ids] in the position of a callback: truthy unless it is the
    empty string, and never a function. *)
Definition ids_as_callback (user_ids : ids_t) : callback_t :=
  match user_ids with
  | Single "" => NoCallback
  | _ => NotCallable
  end.

(** The method passes [user_ids] to [getCurrentUser] where a callback is
    expected and then reads [body], which neither the method nor the
    module declares. *)
Definition getUsersSubStatus (fuel : nat) (user_ids : ids_t)
           (callback : callback_t) : M jsval :=
  let query := "?" in
  let* user := getCurrentUser fuel (ids_as_callback user_ids) in
  let* body := @unbound_identifier jsval "body" in
  let* data := get_prop body "data" in
  let* user := get_index data 0 in
  let* id := get_prop user "id" in
  let query := query +:+ "broadcaster_id=" +:+ ToString id in
  let query :=
    match user_ids with
    | Single user_ids => query +:+ "&user_id=" +:+ user_ids
    | Many user_ids =>
        fold_left (fun query id => query +:+ "&user_id=" +:+ id) user_ids query
    end in
  let endpoint := "/subscriptions" +:+ query in
  if cb_truthy callback
  then detach (GetTask endpoint callback);; ret JUndefined
  else _get fuel endpoint NoCallback.

(** [isNaN(channel) ? "user_login" : "user_id"] *)
Definition channel_type (channel : jsval) : string :=
  if isNaN channel then "user_login" else "user_id".

Definition streams_channels_query (query : string) (channels : jsval)
  : M string :=
  if truthy channels then
    match channels with
    | JStr s =>
        let type := channel_type channels in
        ret (query +:+ type +:+ "=" +:+ s +:+ "&")
    | JArr l =>
        ret (fold_left
               (fun query channel =>
                  let type := channel_type channel in
                  query +:+ type +:+ "=" +:+ ToString channel +:+ "&")
               l query)
    | _ => throw (TypeError "channels is not iterable")
    end
  else ret query.

Definition getStreams (fuel : nat) (options : option nat)
           (callback : callback_t) : M jsval :=
  let* options := match options with
                  | Some l => ret l
                  | None => alloc []
                  end in
  let query := "?" in
  let* o := deref options in
  let channels := default JUndefined (obj_get "channels" o) in
  store options (obj_delete "channels" o);;
  let* o := deref options in
  let query := query +:+ parseOptions o in
  let* query := streams_channels_query query channels in
  let endpoint := "/streams" +:+ query in
  if cb_truthy callback
  then detach (GetTask endpoint callback);; ret JUndefined
  else _get fuel endpoint NoCallback.

(** The own enumerable properties [Object.assign] copies from a source. *)
Definition own_enumerable (v : jsval) : obj :=
  match v with
  | JObj o => o
  | JArr l => imap (fun i x => (pretty i, x)) l
  | JStr s => imap (fun i c => (pretty i, JStr (String c EmptyString)))
                   (list_ascii_of_string s)
  | _ => []
  end.

Definition starts_with_slash (endpoint : string) : bool :=
  match endpoint with
  | String c _ => Ascii.eqb c "/"
  | EmptyString => false
  end.

Definition customRequest (endpoint : jsval) (options : options_arg)
           (callback : callback_t) : M jsval :=
  let* endpoint :=
    match endpoint with
    | JStr s =>
        if String.eqb s ""
        then _error "No endpoint was provided, cannot perform custom request."
        else ret s
    | _ => _error "No endpoint was provided, cannot perform custom request."
    end in
  let endpoint := if starts_with_slash endpoint then endpoint
                  else "/" +:+ endpoint in
  let* t := this in
  let headers := [("Client-ID", client_id t);
                  ("Authorization",
                   JStr ("Bearer " +:+ ToString (access_token t)))] in
  let* options :=
    match options with
    | Absent => alloc []
    | NotAnObject =>
        _error "customRequest received an options parameter that was not of type object."
    | Object l => ret l
    end in
  let* o := deref options in
  let o := obj_set "url" (JStr (base t +:+ endpoint)) o in
  let o := obj_set "headers"
             (JObj (obj_assign headers
                      (own_enumerable (default JUndefined (obj_get "headers" o)))))
             o in
  let o := obj_set "resolveWithFullResponse" (JBool true) o in
  let o := obj_set "simple" (JBool false) o in
  store options o;;
  let* response := catch (request o)
                         (fun err => _error (exn_to_string err)) in
  let* body := JSON_parse (body response) in
  when (400 <=? statusCode response)%Z
       (let* message := get_prop body "message" in
        log (ConsoleLog
               ("Custom request to "
                  +:+ ToString (default JUndefined (obj_get "url" o))
                  +:+ " failed:" +:+ nl
                  +:+ pretty (statusCode response) +:+ " "
                  +:+ statusMessage response +:+ ": "
                  +:+ ToString message +:+ nl)));;
  if cb_truthy callback
  then invoke callback [ArgValue body; ArgResponse response];; ret JUndefined
  else ret body.

(** *** The constructor *)

(** [a || f()]: [f] is called only when [a] is falsy. *)
Definition or_else_call (a : jsval) (f : jsval + exn) : M jsval :=
  if truthy a then ret a
  else match f with
       | inl v => ret v
       | inr e => throw e
       end.

(** The synchronous part of [new TwitchApi(config)]: the fields, the check
    of conflicting options, and the start of the first fetch.  Reading a
    property of a missing [config] throws, and so may the two lookups and
    [setApiUser]. *)
Definition constructor (config : option config) : M unit :=
  let* config :=
    match config with
    | Some config => ret config
    | None =>
        throw (TypeError "Cannot read properties of undefined (reading 'isApp')")
    end in
  let* client_id := or_else_call (cfg_client_id config) getLocalClientId in
  let* client_secret :=
    or_else_call (cfg_client_secret config) getLocalClientSecret in
  update (fun _ =>
            MkTwitchApi (truthy (cfg_isApp config))
                        (cfg_access_token config)
                        (cfg_refresh_token config)
                        client_id
                        client_secret
                        "https://api.twitch.tv/helix"
                        0
                        JUndefined
                        []);;
  let* t := this in
  when (isApp t && truthy (access_token t))
       (_error "Option isApp is set to true while an access_token is provided. Choose one method of authentication, do not use both.");;
  if isApp t then detach InitAppToken
  else
    getCurrentUser 0 (Function "constructor.ready");;
    log SetApiUser;;
    match setApiUser config with
    | Some e => throw e
    | None => ret tt
    end.

(** The callback of the first fetch in app mode. *)
Definition on_app_token (result : jsval) : M unit :=
  let* token := get_prop result "access_token" in
  update (set_access_token token);;
  emit "ready" [].

(** The callback of the first fetch in user mode. *)
Definition on_current_user (body : jsval) : M unit :=
  let* rows := get_prop body "data" in
  let* data := get_index rows 0 in
  update (set_user data);;
  emit "ready" [].

(** [api.on(event, listener)] by the host application. *)
Definition on (event : string) : M unit := update (add_listener event).

End Library.

(** ** Calls in flight at the same time

    An [async] method runs until it awaits a request and goes on when the
    request has settled; in between, other calls of the host run.  A call
    is written here with its awaits: stretches of synchronous code, which
    return or throw, and requests, whose outcome the call waits for.  The
    methods of the refresh path and [_get] are written that way below, as
    they are above, and proved to be the same when a call runs alone. *)

Section Flight.

Variable inspect : jsval -> string.
Variable JSON_parse_text : string -> jsval + string.
Variable network : nat -> obj -> outcome.

(** A call: it has returned, it has thrown, it runs a stretch of
    synchronous code and goes on with its result or with what it threw, or
    it issues a request and goes on with its outcome. *)
Inductive async (A : Type) : Type :=
| Return (a : A)
| Raise (e : exn)
| Sync {B : Type} (c : M B) (k : B -> async A) (h : exn -> async A)
| Await (options : obj) (k : outcome -> async A).
Arguments Return {A} a.
Arguments Raise {A} e.
Arguments Sync {A B} c k h.
Arguments Await {A} options k.

Fixpoint abind {A B} (c : async A) (f : A -> async B) : async B :=
  match c with
  | Return a => f a
  | Raise e => Raise e
  | Sync c k h => Sync c (fun b => abind (k b) f) (fun e => abind (h e) f)
  | Await options k => Await options (fun o => abind (k o) f)
  end.

(** [promise.catch(handler)] *)
Fixpoint acatch {A} (c : async A) (handler : exn -> async A) : async A :=
  match c with
  | Return a => Return a
  | Raise e => handler e
  | Sync c k h =>
      Sync c (fun b => acatch (k b) handler) (fun e => acatch (h e) handler)
  | Await options k => Await options (fun o => acatch (k o) handler)
  end.

Notation "'let+' x ':=' c 'in' k" := (abind c (fun x => k))
  (at level 10, x name, c at level 100, k at level 200).

(** A stretch of synchronous code. *)
Definition sync {A} (c : M A) : async A := Sync c Return Raise.

(** [await request(options)] *)
Definition await_request (options : obj) : async response :=
  Await options (fun o => match o with
                          | Resolved r => Return r
                          | Rejected err => Raise err
                          end).

Definition _getAppAccessToken_async (callback : callback_t) : async jsval :=
  let+ t := sync this in
  let options := app_token_options t in
  let+ response := acatch (await_request options)
                          (fun err => sync (_error (exn_to_string err))) in
  sync (let* body := JSON_parse JSON_parse_text (body response) in
        if cb_truthy callback
        then invoke callback [ArgValue body; ArgResponse response];;
             ret JUndefined
        else ret body).

Definition _validate_async (callback : callback_t) : async jsval :=
  let+ t := sync this in
  let options := validate_options t in
  let+ response := acatch (await_request options)
                          (fun err => sync (_error (exn_to_string err))) in
  sync (let* body := JSON_parse JSON_parse_text (body response) in
        let* message := get_prop body "message" in
        let valid := match statusCode response with
                     | 200%Z => true
                     | 401%Z => false
                     | _ => false
                     end in
        when (strict_equals_string message "missing authorization token")
             (_error (ToString message));;
        if cb_truthy callback
        then invoke callback [ArgValue (JBool valid)];; ret JUndefined
        else ret (JBool valid)).

Definition _refresh_async (callback : callback_t) : async unit :=
  let+ t := sync this in
  let+ _ := sync (when (1 <? refresh_attempts t)%nat
                       (_error "Refresh attempts have failed. Use the previously logged information as help.")) in
  let options := refresh_options t in
  let+ valid := _validate_async NoCallback in
  if truthy valid then Return tt
  else
    let+ t := sync this in
    if isApp t then
      let+ result := acatch (_getAppAccessToken_async NoCallback)
                            (fun err => sync (_error (exn_to_string err))) in
      sync (let* token := get_prop result "access_token" in
            update (set_access_token token);;
            emit inspect "refresh" [result];;
            when (cb_truthy callback) (invoke callback []);;
            ret tt)
    else
      let+ response := acatch (await_request options)
                              (fun err => sync (_error (exn_to_string err))) in
      sync (let body := body response in
            let* access_token := get_prop body "access_token" in
            let* refresh_token := get_prop body "refresh_token" in
            when (truthy access_token) (update (set_access_token access_token));;
            when (truthy refresh_token)
                 (update (set_refresh_token refresh_token));;
            let* listening := _isListeningFor "refresh" in
            when listening (emit inspect "refresh" [body]);;
            when (cb_truthy callback) (invoke callback []);;
            let* t := this in
            update (set_refresh_attempts (refresh_attempts t + 1));;
            ret tt).

Fixpoint _get_async (fuel : nat) (endpoint : string) (callback : callback_t)
  : async jsval :=
  match fuel with
  | O => sync diverge
  | S fuel' =>
      let+ t := sync this in
      let url := base t +:+ endpoint in
      let options := get_options t endpoint in
      let+ response := acatch (await_request options)
                              (fun err => sync (_error (exn_to_string err))) in
      let+ body := sync (JSON_parse JSON_parse_text (body response)) in
      let status := statusCode response in
      let+ message := sync (get_prop body "message") in
      let+ _ :=
        sync (when (400 <=? status)%Z
                (let err_msg := http_error_text "Get" url response message in
                 let err_obj := http_error_object response message in
                 when (regexp_test message) (_error (ToString message));;
                 log (ConsoleError err_msg);;
                 let* listening := _isListeningFor "error" in
                 when listening (emit inspect "error" [err_obj]))) in
      if (400 <=? status)%Z then
        let+ _ := _refresh_async NoCallback in
        _get_async fuel' endpoint callback
      else
        sync (if cb_truthy callback
              then invoke callback [ArgValue body; ArgResponse response];;
                   ret JUndefined
              else ret body)
  end.

(** A call run alone: each request is answered before anything else
    happens. *)
Fixpoint run_alone {A} (c : async A) (m : machine) : result A * machine :=
  match c with
  | Return a => (Ret a, m)
  | Raise e => (Throw e, m)
  | Sync c k h =>
      match c m with
      | (Ret b, m') => run_alone (k b) m'
      | (Throw e, m') => run_alone (h e) m'
      | (Diverge, m') => (Diverge, m')
      end
  | Await options k =>
      run_alone (k (network (requests m) options))
                (Machine (self m) (heap m) (S (requests m))
                         (trace m ++ [Request options]))
  end.

(** A call in flight: settled, or waiting for the outcome of the request
    it has issued. *)
Inductive thread (A : Type) : Type :=
| Settled (r : result A)
| Waiting (answer : outcome) (k : outcome -> async A).
Arguments Settled {A} r.
Arguments Waiting {A} answer k.

(** Run a call up to its next request, which is issued, or to its end. *)
Fixpoint advance {A} (c : async A) (m : machine) : thread A * machine :=
  match c with
  | Return a => (Settled (Ret a), m)
  | Raise e => (Settled (Throw e), m)
  | Sync c k h =>
      match c m with
      | (Ret b, m') => advance (k b) m'
      | (Throw e, m') => advance (h e) m'
      | (Diverge, m') => (Settled Diverge, m')
      end
  | Await options k =>
      (Waiting (network (requests m) options) k,
       Machine (self m) (heap m) (S (requests m))
               (trace m ++ [Request options]))
  end.




End Flight.

Arguments Return {A} a.
Arguments Raise {A} e.
Arguments Sync {A B} c k h.
Arguments Await {A} options k.
Arguments Settled {A} r.
Arguments Waiting {A} answer k.

(** ** Reading the effect log *)

Definition request_url (e : event) : option string :=
  match e with
  | Request options =>
      match obj_get "url" options with
      | Some (JStr url) => Some url
      | _ => None
      end
  | _ => None
  end.

(** How many requests of a log went to [url]. *)
Definition requests_to (url : string) (tr : list event) : nat :=
  length (filter (fun e => request_url e = Some url) tr).

Definition token_url : string := "https://id.twitch.tv/oauth2/token".
Definition validate_url : string := "https://id.twitch.tv/oauth2/validate".

(** The log entries of a failed GET. *)
Definition get_failure_events (t : TwitchApi) (endpoint : string)
           (r : response) (message : jsval) : list event :=
  [Request (get_options t endpoint);
   ConsoleError (http_error_text "Get" (base t +:+ endpoint) r message)]
  ++ (if existsb (String.eqb "error") (listeners t)
      then [Emit "error" [http_error_object r message]] else []).

(** The tokens after a refresh in user mode. *)
Definition refreshed_tokens (body : jsval) (t : TwitchApi) : TwitchApi :=
  let access_token := prop_value body "access_token" in
  let refresh_token := prop_value body "refresh_token" in
  let t := if truthy access_token then set_access_token access_token t else t in
  if truthy refresh_token then set_refresh_token refresh_token t else t.

(** ** What a run may change *)

(** Everything but the tokens and the user profile is as before; the log
    only grows. *)
Record same_but_tokens (m m' : machine) : Prop := SameButTokens {
  sbt_heap : heap m' = heap m;
  sbt_isApp : isApp (self m') = isApp (self m);
  sbt_base : base (self m') = base (self m);
  sbt_client_id : client_id (self m') = client_id (self m);
  sbt_client_secret : client_secret (self m') = client_secret (self m);
  sbt_listeners : listeners (self m') = listeners (self m);
  sbt_attempts : refresh_attempts (self m') = refresh_attempts (self m);
  sbt_requests : requests m <= requests m';
  sbt_trace : trace m `prefix_of` trace m'
}.

(** As above, but the refresh counter may have grown, never beyond 2 unless
    it already was. *)
Record evolves (m m' : machine) : Prop := Evolves {
  ev_heap : heap m' = heap m;
  ev_isApp : isApp (self m') = isApp (self m);
  ev_base : base (self m') = base (self m);
  ev_client_id : client_id (self m') = client_id (self m);
  ev_client_secret : client_secret (self m') = client_secret (self m);
  ev_listeners : listeners (self m') = listeners (self m);
  ev_attempts_mono : refresh_attempts (self m) <= refresh_attempts (self m');
  ev_attempts_bound :
    refresh_attempts (self m') <= Nat.max 2 (refresh_attempts (self m));
  ev_requests : requests m <= requests m';
  ev_trace : trace m `prefix_of` trace m'
}.

Definition gentle {A} (c : M A) : Prop :=
  forall m, same_but_tokens m (snd (c m)).

Definition steady {A} (c : M A) : Prop :=
  forall m, evolves m (snd (c m)).

(** ** Calls made one after another *)


Section Lifetime.

Variable inspect : jsval -> string.
Variable JSON_parse_text : string -> jsval + string.
Variable network : nat -> obj -> outcome.



End Lifetime.

(** ** Words of the description *)




(** The query the description promises for a list of ids: one parameter per
    id, in order, the first behind a question mark and every later one
    behind an ampersand. *)
Definition query_parameter (position : nat) (id : string) : string :=
  (if Nat.eqb position 0 then "?" else "&")
    +:+ id_type (JStr id) +:+ "=" +:+ id.

Definition described_query (ids : list string) : string :=
  fold_right String.append "" (imap query_parameter ids).

(** ** Sample worlds for the closed examples *)

Definition dq : string := String "034" EmptyString.

(** The JSON text of an object with one string field. *)
Definition json_field (k v : string) : string :=
  "{" +:+ dq +:+ k +:+ dq +:+ ":" +:+ dq +:+ v +:+ dq +:+ "}".

(** [JSON.parse] on the few texts the examples use; the only other text the
    examples hand to it is [[object Object]], which is not JSON. *)
Definition sample_JSON_parse (s : string) : jsval + string :=
  if String.eqb s "{}" then inl (JObj [])
  else if String.eqb s "null" then inl JNull
  else if String.eqb s "5" then inl (JNum "5")
  else if String.eqb s (json_field "access_token" "fresh")
  then inl (JObj [("access_token", JStr "fresh")])
  else if String.eqb s (json_field "message" "invalid access token")
  then inl (JObj [("message", JStr "invalid access token")])
  else if String.eqb s (json_field "message" "not found")
  then inl (JObj [("message", JStr "not found")])
  else inr "Unexpected token".

(** [util.inspect] on the small values the examples print, which fit on
    one line: strings in single quotes, the properties of an object between
    braces. *)
Fixpoint sample_inspect (v : jsval) : string :=
  match v with
  | JStr s => "'" +:+ s +:+ "'"
  | JObj [] => "{}"
  | JObj o =>
      "{ " +:+ (fix properties (o : obj) : string :=
                  match o with
                  | [] => ""
                  | [(k, x)] => k +:+ ": " +:+ sample_inspect x
                  | (k, x) :: r =>
                      k +:+ ": " +:+ sample_inspect x +:+ ", " +:+ properties r
                  end) o +:+ " }"
  | _ => ToString v
  end.

(** Modelled from the spec: [methods.parseOptions] of [./methods] is not
    among the sources; the description calls it the option/query encoder,
    which converts a configuration mapping into a URL query string.  This
    sample writes [key=value&] for each property. *)
Definition sample_parseOptions (o : obj) : string :=
  fold_right (fun kv acc => fst kv +:+ "=" +:+ ToString (snd kv) +:+ "&" +:+ acc)
             "" o.

(** A network that answers the n-th request with the n-th entry. *)
Definition script (answers : list outcome) : nat -> obj -> outcome :=
  fun n _ => default (Rejected (Exn "RequestError" "no route to host"))
                     (answers !! n).

Definition sample_instance (app : bool) (attempts : nat) : TwitchApi :=
  MkTwitchApi app (JStr "stale") (JStr "r0") (JStr "cid") (JStr "secret")
              "https://api.twitch.tv/helix" attempts JUndefined [].

Definition sample_machine (app : bool) (attempts : nat) : machine :=
  Machine (sample_instance app attempts) ∅ 0 [].

Definition unauthorized : outcome :=
  Resolved (Response 401 "Unauthorized"
                     (JStr (json_field "message" "invalid access token"))).

Definition not_found : outcome :=
  Resolved (Response 404 "Not Found" (JStr (json_field "message" "not found"))).

Definition ok : outcome := Resolved (Response 200 "OK" (JStr "{}")).

(** The token endpoint answering a [json: true] request with an object. *)
Definition token_object : outcome :=
  Resolved (Response 200 "OK" (JObj [("access_token", JStr "fresh")])).

(** The token endpoint answering with JSON text. *)
Definition token_text : outcome :=
  Resolved (Response 200 "OK" (JStr (json_field "access_token" "fresh"))).

Definition users_url : string := "https://api.twitch.tv/helix/users".

(** An instance with a listener for the error event. *)
Definition listening_machine : machine :=
  Machine (add_listener "error" (sample_instance false 0)) ∅ 0 [].

Definition sample_config (app : bool) : config :=
  Config (JBool app) (if app then JUndefined else JStr "stale") (JStr "r0")
         (JStr "cid") (JStr "secret").

(** An instance as the constructor leaves it. *)
Definition constructed (app : bool) : machine :=
  snd (constructor sample_inspect sample_JSON_parse (inl JUndefined)
                   (inl JUndefined) (fun _ => None) (script [])
                   (Some (sample_config app)) (sample_machine false 7)).

(** A caller's options object with [channels] and one more property. *)
Definition streams_machine : machine :=
  Machine (sample_instance false 0)
          {[ 7 := [("channels", JStr "ninja"); ("first", JNum "5")] ]} 0 [].

(** [JSON.parse] on the two messages that are fatal, and else as above. *)
Definition fatal_JSON_parse (s : string) : jsval + string :=
  if String.eqb s (json_field "message" "missing authorization token")
  then inl (JObj [("message", JStr "missing authorization token")])
  else if String.eqb s (json_field "message" "Valid OAuth token with scope required")
  then inl (JObj [("message", JStr "Valid OAuth token with scope required")])
  else sample_JSON_parse s.

Definition missing_token : outcome :=
  Resolved (Response 401 "Unauthorized"
                     (JStr (json_field "message" "missing authorization token"))).

Definition scope_required : outcome :=
  Resolved (Response 401 "Unauthorized"
                     (JStr (json_field "message"
                                       "Valid OAuth token with scope required"))).

(** The token endpoint refusing the refresh token. *)
Definition token_refused : outcome :=
  Resolved (Response 400 "Bad Request"
                     (JObj [("status", JNum "400");
                            ("message", JStr "Invalid refresh token")])).


(** A caller's options object with the given [channels]. *)
Definition channels_machine (channels : jsval) : machine :=
  Machine (sample_instance false 0)
          {[ 7 := [("channels", channels); ("first", JNum "5")] ]} 0 [].

(** A caller's request options for [customRequest]. *)
Definition request_options_machine : machine :=
  Machine (sample_instance false 0)
          {[ 3 := [("url", JStr "https://example.org/");
                   ("timeout", JNum "1000")] ]} 0 [].

(** The GET refused whenever it is tried, a token endpoint that answers,
    and a validator that finds the token invalid once, at the first
    validation of the run (its second request), and valid ever after. *)
Definition invalid_once : nat -> obj -> outcome :=
  fun n options =>
    match obj_get "method" options with
    | Some (JStr "GET") => unauthorized
    | Some _ => token_object
    | None => if (n <? 2)%nat then unauthorized else ok
    end.





(** A caller's request options with headers of its own, one of them the
    [Authorization] header. *)
Definition headers_machine : machine :=
  Machine (sample_instance false 0)
          {[ 3 := [("headers", JObj [("Accept", JStr "application/json");
                                     ("Authorization", JStr "Bearer mine")]);
                   ("timeout", JNum "1000")] ]} 0 [].

(** * Properties *)

(** ** The built-ins on samples *)

Example isNaN_samples :
  map string_isNaN ["123"; "ninja"; ""; " 42 "; "1e3"; "0x1F"; "-5"; "Infinity";
                    "infinity"; "1_000"; "0x"; "."; "5."; ".5e-3"; "12ab"; "-0x10"]
  = [false; true; false; false; false; false; false; false;
     true; true; true; true; false; false; true; true].
Proof. reflexivity. Qed.

Example regexp_samples :
  map (fun s => regexp_test (JStr s))
      ["Valid OAuth token with"; "a valid oauth TOKEN with scope"; "invalid OAuth token with";
       "Invalid OAuth token"; "x_Valid OAuth token with"; "x-Valid OAuth token with"]
  = [true; true; false; false; false; true].
Proof. reflexivity. Qed.

Example encodeURIComponent_sample :
  encodeURIComponent "a b/c~d" = "a%20b%2Fc~d".
Proof. reflexivity. Qed.

(** ** Frame lemmas *)

Lemma same_but_tokens_refl m : same_but_tokens m m.
Proof. split; try reflexivity; lia. Qed.

Lemma same_but_tokens_trans m1 m2 m3 :
  same_but_tokens m1 m2 -> same_but_tokens m2 m3 -> same_but_tokens m1 m3.
Proof.
  intros [] []. split; try congruence; try lia.
  etrans; eauto.
Qed.

Lemma evolves_refl m : evolves m m.
Proof. split; try reflexivity; lia. Qed.

Lemma evolves_trans m1 m2 m3 : evolves m1 m2 -> evolves m2 m3 -> evolves m1 m3.
Proof.
  intros [] []. split; try congruence; try lia.
  etrans; eauto.
Qed.

Lemma same_but_tokens_evolves m m' : same_but_tokens m m' -> evolves m m'.
Proof. intros []. split; try congruence; lia. Qed.

Lemma gentle_steady {A} (c : M A) : gentle c -> steady c.
Proof. intros H m. apply same_but_tokens_evolves, H. Qed.

Lemma gentle_ret {A} (a : A) : gentle (ret a).
Proof. intros m. apply same_but_tokens_refl. Qed.

Lemma gentle_throw {A} e : gentle (@throw A e).
Proof. intros m. apply same_but_tokens_refl. Qed.

Lemma gentle_bind {A B} (c : M A) (k : A -> M B) :
  gentle c -> (forall a, gentle (k a)) -> gentle (bind c k).
Proof.
  intros Hc Hk m. unfold bind. specialize (Hc m).
  destruct (c m) as [[a | e |] m1]; simpl in *; trivial.
  eapply same_but_tokens_trans; [exact Hc | apply Hk].
Qed.

Lemma gentle_catch {A} (c : M A) (h : exn -> M A) :
  gentle c -> (forall e, gentle (h e)) -> gentle (catch c h).
Proof.
  intros Hc Hh m. unfold catch. specialize (Hc m).
  destruct (c m) as [[a | e |] m1]; simpl in *; trivial.
  eapply same_but_tokens_trans; [exact Hc | apply Hh].
Qed.

Lemma gentle_when b (c : M unit) : gentle c -> gentle (when b c).
Proof. destruct b; simpl; auto using @gentle_ret. Qed.

Lemma gentle_this : gentle this.
Proof. intros m. apply same_but_tokens_refl. Qed.

Lemma gentle_log e : gentle (log e).
Proof.
  intros m. split; simpl; try reflexivity; try lia.
  by apply prefix_app_r.
Qed.

Lemma gentle_set_access_token v : gentle (update (set_access_token v)).
Proof. intros m. split; simpl; try reflexivity; lia. Qed.

Lemma gentle_set_refresh_token v : gentle (update (set_refresh_token v)).
Proof. intros m. split; simpl; try reflexivity; lia. Qed.

Lemma gentle_set_user v : gentle (update (set_user v)).
Proof. intros m. split; simpl; try reflexivity; lia. Qed.

Lemma gentle_get_prop v k : gentle (get_prop v k).
Proof.
  unfold get_prop. destruct (nullish v); auto using @gentle_ret, @gentle_throw.
Qed.

Lemma gentle_get_index v i : gentle (get_index v i).
Proof. destruct v; simpl; auto using @gentle_ret, @gentle_throw. Qed.

Lemma gentle_invoke cb args : gentle (invoke cb args).
Proof.
  destruct cb; simpl; unfold call_non_function;
    auto using gentle_log, @gentle_throw.
Qed.

Lemma gentle_detach t : gentle (detach t).
Proof. apply gentle_log. Qed.

Lemma gentle_diverge {A} : gentle (@diverge A).
Proof. intros m. apply same_but_tokens_refl. Qed.

Lemma gentle_deref l : gentle (deref l).
Proof. intros m. apply same_but_tokens_refl. Qed.

Lemma steady_ret {A} (a : A) : steady (ret a).
Proof. apply gentle_steady, gentle_ret. Qed.

Lemma steady_bind {A B} (c : M A) (k : A -> M B) :
  steady c -> (forall a, steady (k a)) -> steady (bind c k).
Proof.
  intros Hc Hk m. unfold bind. specialize (Hc m).
  destruct (c m) as [[a | e |] m1]; simpl in *; trivial.
  eapply evolves_trans; [exact Hc | apply Hk].
Qed.

Lemma steady_when b (c : M unit) : steady c -> steady (when b c).
Proof. destruct b; simpl; auto using @steady_ret. Qed.

Lemma bind_this {A} (k : TwitchApi -> M A) m : bind this k m = k (self m) m.
Proof. reflexivity. Qed.

Lemma bind_ret {A B} (a : A) (k : A -> M B) m : bind (ret a) k m = k a m.
Proof. reflexivity. Qed.

Lemma bind_throw {A B} e (k : A -> M B) m : bind (throw e) k m = (Throw e, m).
Proof. reflexivity. Qed.

Lemma bind_assoc {A B C} (c : M A) (k1 : A -> M B) (k2 : B -> M C) m :
  bind (bind c k1) k2 m = bind c (fun a => bind (k1 a) k2) m.
Proof. unfold bind. by destruct (c m) as [[a | e |] m1]. Qed.

Lemma evolves_gentle_tail {A} (c : M A) m0 m :
  same_but_tokens m0 m -> gentle c -> evolves m0 (snd (c m)).
Proof.
  intros H0 Hc. apply same_but_tokens_evolves.
  eapply same_but_tokens_trans; [exact H0 | apply Hc].
Qed.

(** A gentle step in front of a computation, seen from a fixed start. *)
Lemma evolves_after_gentle {A B} (c : M A) (k : A -> M B) m0 m :
  same_but_tokens m0 m -> gentle c ->
  (forall a m', same_but_tokens m0 m' -> evolves m0 (snd (k a m'))) ->
  evolves m0 (snd (bind c k m)).
Proof.
  intros H0 Hc Hk. unfold bind. specialize (Hc m).
  assert (same_but_tokens m0 (snd (c m))) as H1
    by (eapply same_but_tokens_trans; eauto).
  destruct (c m) as [[a | e |] m1]; simpl in *;
    auto using same_but_tokens_evolves.
Qed.

Create HintDb frame.
#[local] Hint Resolve gentle_ret gentle_throw gentle_this gentle_log
  gentle_set_access_token gentle_set_refresh_token gentle_set_user
  gentle_get_prop gentle_get_index gentle_invoke gentle_detach
  gentle_diverge gentle_deref steady_ret : frame.

Ltac gentle_step :=
  cbv zeta;
  lazymatch goal with
  | |- gentle (bind _ _) => apply gentle_bind; [| intros ?]
  | |- gentle (catch _ _) => apply gentle_catch; [| intros ?]
  | |- gentle (when _ _) => apply gentle_when
  | |- gentle (if ?b then _ else _) => destruct b
  | |- gentle (match ?x with _ => _ end) => destruct x
  | |- gentle _ => solve [eauto with frame]
  end.

Ltac gentle_tac := repeat gentle_step.

Section Properties.

Variable inspect : jsval -> string.
Variable JSON_parse_text : string -> jsval + string.
Variable parseOptions : obj -> string.
Variable network : nat -> obj -> outcome.

Lemma gentle_request options : gentle (request network options).
Proof.
  intros m. unfold request.
  destruct (network _ _); split; simpl; try reflexivity; try lia;
    by apply prefix_app_r.
Qed.

Lemma gentle_JSON_parse v : gentle (JSON_parse JSON_parse_text v).
Proof. unfold JSON_parse. gentle_tac. Qed.

Lemma gentle_error {A} err : gentle (@_error A err).
Proof. apply gentle_throw. Qed.

Lemma gentle_isListeningFor ev : gentle (_isListeningFor ev).
Proof. unfold _isListeningFor. gentle_tac. Qed.

Lemma gentle_emit name args : gentle (emit inspect name args).
Proof. unfold emit. gentle_tac. Qed.

#[local] Hint Resolve gentle_request gentle_JSON_parse gentle_error
  gentle_isListeningFor gentle_emit : frame.

Lemma gentle_getAppAccessToken cb :
  gentle (_getAppAccessToken JSON_parse_text network cb).
Proof. unfold _getAppAccessToken. gentle_tac. Qed.

Lemma gentle_validate cb : gentle (_validate JSON_parse_text network cb).
Proof. unfold _validate. gentle_tac. Qed.

#[local] Hint Resolve gentle_getAppAccessToken gentle_validate : frame.

Lemma steady_refresh cb : steady (_refresh inspect JSON_parse_text network cb).
Proof.
  intros m. unfold _refresh. rewrite bind_this.
  destruct (1 <? refresh_attempts (self m))%nat eqn:Hguard.
  { apply evolves_refl. }
  apply Nat.ltb_ge in Hguard.
  cbn [when]. rewrite bind_ret. cbv zeta.
  apply evolves_after_gentle;
    [apply same_but_tokens_refl | apply gentle_validate |].
  intros valid m1 H1.
  destruct (truthy valid).
  { by apply same_but_tokens_evolves. }
  rewrite bind_this. destruct (isApp (self m1)).
  { apply evolves_gentle_tail; [exact H1 | gentle_tac]. }
  repeat lazymatch goal with
         | |- evolves _ (snd (bind this _ _)) => fail
         | |- _ =>
             apply evolves_after_gentle;
             [exact H1 | solve [gentle_tac] | clear H1; intros ? ? H1]
         end.
  rewrite bind_this. destruct H1. split; simpl; try congruence; try lia.
Qed.

Ltac steady_step :=
  cbv zeta;
  lazymatch goal with
  | |- steady (bind _ _) => apply steady_bind; [| intros ?]
  | |- steady (when _ _) => apply steady_when
  | |- steady (if ?b then _ else _) => destruct b
  | |- steady (match ?x with _ => _ end) => destruct x
  | |- steady _ =>
      first [ solve [eauto using steady_refresh with frame]
            | apply gentle_steady; solve [gentle_tac] ]
  end.

Ltac steady_tac := repeat steady_step.

Lemma steady_get fuel endpoint cb :
  steady (_get inspect JSON_parse_text network fuel endpoint cb).
Proof.
  induction fuel as [| fuel IH]; cbn [_get].
  - apply gentle_steady, gentle_diverge.
  - steady_tac.
Qed.


(** *** Objects *)

Lemma obj_get_delete k o : obj_get k (obj_delete k o) = None.
Proof.
  induction o as [| [k' v] o IH]; simpl; trivial.
  destruct (String.eqb k k') eqn:E; simpl; rewrite ?E; trivial.
Qed.

Lemma obj_get_delete_ne k k' o :
  k <> k' -> obj_get k (obj_delete k' o) = obj_get k o.
Proof.
  intros Hne. induction o as [| [k'' v] o IH]; simpl; trivial.
  destruct (String.eqb k' k'') eqn:E; simpl.
  - apply String.eqb_eq in E. subst k''.
    destruct (String.eqb k k') eqn:E'; trivial.
    apply String.eqb_eq in E'. congruence.
  - by rewrite IH.
Qed.

Lemma obj_get_set_eq k v o : obj_get k (obj_set k v o) = Some v.
Proof.
  induction o as [| [k' v'] o IH]; simpl.
  - by rewrite String.eqb_refl.
  - destruct (String.eqb k k') eqn:E; simpl.
    + by rewrite String.eqb_refl.
    + by rewrite E.
Qed.

Lemma obj_get_set_ne k k' v o :
  k <> k' -> obj_get k (obj_set k' v o) = obj_get k o.
Proof.
  intros Hne. apply String.eqb_neq in Hne.
  induction o as [| [k'' v''] o IH]; simpl.
  - by rewrite Hne.
  - destruct (String.eqb k' k'') eqn:E; simpl.
    + apply String.eqb_eq in E. subst k''. by rewrite Hne.
    + by rewrite IH.
Qed.

(** [Object.assign] keeps what the source does not name ... *)
Lemma obj_get_assign_absent k target source :
  obj_get k source = None ->
  obj_get k (obj_assign target source) = obj_get k target.
Proof.
  unfold obj_assign. revert target.
  induction source as [| [k' v'] source IH]; intros target H; simpl in *.
  - reflexivity.
  - destruct (String.eqb k k') eqn:E; [discriminate |].
    rewrite IH by exact H. apply obj_get_set_ne.
    by apply String.eqb_neq.
Qed.

Lemma obj_get_absent k (o : obj) : k ∉ o.*1 -> obj_get k o = None.
Proof.
  induction o as [| [k' v'] o IH]; simpl; intros H; trivial.
  rewrite not_elem_of_cons in H. destruct H as [Hne Hnot].
  apply String.eqb_neq in Hne. rewrite Hne. by apply IH.
Qed.

(** ... and takes the rest from the source. *)
Lemma obj_get_assign_present k v target source :
  NoDup source.*1 ->
  obj_get k source = Some v ->
  obj_get k (obj_assign target source) = Some v.
Proof.
  unfold obj_assign. revert target.
  induction source as [| [k' v'] source IH]; intros target Hnd H;
    simpl in *; [discriminate |].
  apply NoDup_cons in Hnd. destruct Hnd as [Hnot Hnd].
  destruct (String.eqb k k') eqn:E.
  - apply String.eqb_eq in E. subst k'. injection H as ->.
    change (obj_get k (obj_assign (obj_set k v target) source) = Some v).
    rewrite obj_get_assign_absent by (by apply obj_get_absent).
    apply obj_get_set_eq.
  - by apply IH.
Qed.

(** *** getCurrentUser in app mode *)

(** C6: on an instance in app mode ([isApp] true), [getCurrentUser] throws
    whatever its callback argument is, and the machine is left as it was:
    no request is issued and nothing is logged. *)
Theorem getCurrentUser_app_mode_throws fuel callback m :
  isApp (self m) = true ->
  getCurrentUser inspect JSON_parse_text network fuel callback m
  = (Throw (Error "Cannot get the current user when using an application token. Use access_token and refresh_token instead."),
     m).
Proof.
  intros Happ. unfold getCurrentUser. rewrite bind_this, Happ. reflexivity.
Qed.

(** *** getUsersSubStatus *)

Lemma getUsersSubStatus_unfold fuel user_ids callback m :
  getUsersSubStatus inspect JSON_parse_text network fuel user_ids callback m
  = match getCurrentUser inspect JSON_parse_text network fuel
                         (ids_as_callback user_ids) m with
    | (Ret _, m1) => (Throw (ReferenceError "body is not defined"), m1)
    | (Throw e, m1) => (Throw e, m1)
    | (Diverge, m1) => (Diverge, m1)
    end.
Proof.
  unfold getUsersSubStatus. unfold bind at 1.
  by destruct (getCurrentUser _ _ _ _ _ m) as [[u | e |] m1].
Qed.

(** C8, amended: a call of [getUsersSubStatus] does what its inner
    [getCurrentUser] call does and nothing more, so no subscriptions request
    is dispatched; it never returns; when the inner call returns, the read
    of [body] throws a ReferenceError, and when the inner call throws (as it
    does in app mode) that error is the outcome. *)
Theorem getUsersSubStatus_never_succeeds fuel user_ids callback m :
  let inner :=
    getCurrentUser inspect JSON_parse_text network fuel (ids_as_callback user_ids) m in
  let outer :=
    getUsersSubStatus inspect JSON_parse_text network fuel user_ids callback m in
  snd outer = snd inner
  /\ fst outer = match fst inner with
                 | Ret _ => Throw (ReferenceError "body is not defined")
                 | Throw e => Throw e
                 | Diverge => Diverge
                 end
  /\ (forall v, fst outer <> Ret v)
  /\ (isApp (self m) = false -> ids_as_callback user_ids = NotCallable ->
      outer = (Throw (ReferenceError "body is not defined"),
               Machine (self m) (heap m) (requests m)
                       (trace m ++ [Detached (GetTask "/users" NotCallable)]))).
Proof.
  cbv zeta. rewrite getUsersSubStatus_unfold.
  destruct (getCurrentUser _ _ _ _ _ m) as [[u | e |] m1] eqn:Hinner;
    cbn [fst snd];
    (split; [reflexivity | split; [reflexivity | split; [discriminate |]]]);
    intros Happ Hcb; revert Hinner; unfold getCurrentUser;
    rewrite bind_this, Happ, Hcb;
    cbv [when bind ret cb_truthy detach log fst snd];
    intros Hinner; inversion Hinner; subst; reflexivity.
Qed.

(** *** getStreams *)

Lemma gentle_streams_channels_query q channels :
  gentle (streams_channels_query q channels).
Proof. unfold streams_channels_query. gentle_tac. Qed.

#[local] Hint Resolve gentle_streams_channels_query : frame.

(** C10: [getStreams] deletes [channels] from the object the caller passed;
    the query is encoded from the object after the deletion, and when the
    call is over, however it ends, the caller's object is the old one
    without [channels], its other properties and every other object being
    untouched. *)
Theorem getStreams_deletes_channels fuel l callback m :
  let o := heap m !!! l in
  let deleted := Machine (self m) (<[l := obj_delete "channels" o]> (heap m))
                         (requests m) (trace m) in
  let run := getStreams inspect JSON_parse_text parseOptions network fuel (Some l)
                        callback m in
  run = (let* query :=
           streams_channels_query
             ("?" +:+ parseOptions (obj_delete "channels" o))
             (default JUndefined (obj_get "channels" o)) in
         let endpoint := "/streams" +:+ query in
         if cb_truthy callback
         then detach (GetTask endpoint callback);; ret JUndefined
         else _get inspect JSON_parse_text network fuel endpoint NoCallback) deleted
  /\ heap (snd run) = <[l := obj_delete "channels" o]> (heap m)
  /\ obj_get "channels" (heap (snd run) !!! l) = None
  /\ (forall k, k <> "channels" ->
       obj_get k (heap (snd run) !!! l) = obj_get k o).
Proof.
  cbv zeta.
  assert (getStreams inspect JSON_parse_text parseOptions network fuel (Some l)
                     callback m
          = (let* query :=
               streams_channels_query
                 ("?" +:+ parseOptions (obj_delete "channels" (heap m !!! l)))
                 (default JUndefined (obj_get "channels" (heap m !!! l))) in
             let endpoint := "/streams" +:+ query in
             if cb_truthy callback
             then detach (GetTask endpoint callback);; ret JUndefined
             else _get inspect JSON_parse_text network fuel endpoint NoCallback)
              (Machine (self m)
                       (<[l := obj_delete "channels" (heap m !!! l)]> (heap m))
                       (requests m) (trace m))) as Hrun.
  { unfold getStreams. rewrite bind_ret. unfold bind at 1, deref at 1.
    cbn [fst snd]. unfold bind at 1, store at 1. cbn [self heap requests trace].
    unfold bind at 1, deref at 1. cbn [heap].
    rewrite lookup_total_insert_eq. reflexivity. }
  rewrite Hrun. split; [reflexivity |].
  match goal with
  | |- context [snd (?c ?m0)] =>
      assert (steady c) as Hc
  end.
  { repeat first [ steady_step | apply steady_get ]. }
  match goal with
  | |- context [snd (?c ?m0)] => rewrite (ev_heap _ _ (Hc m0))
  end.
  cbn [heap]. split; [reflexivity |].
  rewrite lookup_total_insert_eq. split; [apply obj_get_delete |].
  intros k Hk. by apply obj_get_delete_ne.
Qed.

(** *** One step of each private method *)

#[local] Arguments existsb : simpl never.
#[local] Arguments String.eqb : simpl never.
#[local] Arguments String.append : simpl never.

Lemma request_resolved options m r :
  network (requests m) options = Resolved r ->
  request network options m
  = (Ret r, Machine (self m) (heap m) (S (requests m))
                    (trace m ++ [Request options])).
Proof. intros H. unfold request. by rewrite H. Qed.

Lemma fetch_resolved {A} options (k : response -> M A) m r :
  network (requests m) options = Resolved r ->
  bind (catch (request network options)
              (fun err => _error (exn_to_string err))) k m
  = k r (Machine (self m) (heap m) (S (requests m))
                 (trace m ++ [Request options])).
Proof. intros H. unfold bind, catch. by rewrite (request_resolved _ _ _ H). Qed.

Lemma fetch_resolved_at {A} options (k : response -> M A) t h n tr r :
  network n options = Resolved r ->
  bind (catch (request network options)
              (fun err => _error (exn_to_string err))) k (Machine t h n tr)
  = k r (Machine t h (S n) (tr ++ [Request options])).
Proof. intros H. by rewrite (fetch_resolved options k (Machine t h n tr) r). Qed.

Lemma bind_JSON_parse {A} v parsed (k : jsval -> M A) m :
  JSON_parse_text (ToString v) = inl parsed ->
  bind (JSON_parse JSON_parse_text v) k m = k parsed m.
Proof. intros H. unfold bind, JSON_parse. by rewrite H. Qed.

Lemma bind_get_prop {A} v key (k : jsval -> M A) m :
  nullish v = false ->
  bind (get_prop v key) k m = k (prop_value v key) m.
Proof. intros H. unfold bind, get_prop. by rewrite H. Qed.

Lemma bind_log {A} e (k : unit -> M A) m :
  bind (log e) k m
  = k tt (Machine (self m) (heap m) (requests m) (trace m ++ [e])).
Proof. reflexivity. Qed.

Lemma bind_isListeningFor {A} ev (k : bool -> M A) m :
  bind (_isListeningFor ev) k m
  = k (existsb (String.eqb ev) (listeners (self m))) m.
Proof. reflexivity. Qed.

Lemma bind_update {A} f (k : unit -> M A) m :
  bind (update f) k m
  = k tt (Machine (f (self m)) (heap m) (requests m) (trace m)).
Proof. reflexivity. Qed.

Lemma bind_deref {A} l (k : obj -> M A) m :
  bind (deref l) k m = k (heap m !!! l) m.
Proof. reflexivity. Qed.

Lemma bind_store {A} l o (k : unit -> M A) m :
  bind (store l o) k m
  = k tt (Machine (self m) (<[l := o]> (heap m)) (requests m) (trace m)).
Proof. reflexivity. Qed.

Lemma bind_alloc {A} o (k : nat -> M A) m :
  bind (alloc o) k m
  = k (fresh (dom (heap m)))
      (Machine (self m) (<[fresh (dom (heap m)) := o]> (heap m))
               (requests m) (trace m)).
Proof. reflexivity. Qed.

Lemma bind_emit_unheard {A} name args (k : unit -> M A) m :
  existsb (String.eqb name) (listeners (self m)) = false ->
  String.eqb name "error" = false ->
  bind (emit inspect name args) k m = k tt m.
Proof.
  intros H Hne. unfold emit. rewrite bind_assoc, bind_this, H, Hne.
  reflexivity.
Qed.

Lemma bind_emit_heard {A} name args (k : unit -> M A) m :
  existsb (String.eqb name) (listeners (self m)) = true ->
  bind (emit inspect name args) k m
  = k tt (Machine (self m) (heap m) (requests m) (trace m ++ [Emit name args])).
Proof. intros H. unfold emit. rewrite bind_assoc, bind_this, H. reflexivity. Qed.

(** The token validator says what the status of its response says. *)
Lemma validate_resolved m v parsed :
  network (requests m) (validate_options (self m)) = Resolved v ->
  JSON_parse_text (ToString (body v)) = inl parsed ->
  nullish parsed = false ->
  strict_equals_string (prop_value parsed "message")
                       "missing authorization token" = false ->
  _validate JSON_parse_text network NoCallback m
  = (Ret (JBool (statusCode v =? 200)%Z),
     Machine (self m) (heap m) (S (requests m))
             (trace m ++ [Request (validate_options (self m))])).
Proof.
  intros Hnet Hparse Hnn Hmsg. unfold _validate.
  rewrite bind_this. cbv zeta.
  rewrite (fetch_resolved _ _ _ _ Hnet), (bind_JSON_parse _ _ _ _ Hparse),
    (bind_get_prop _ _ _ _ Hnn), Hmsg.
  cbn [when cb_truthy]. rewrite bind_ret. unfold ret. do 2 f_equal.
  destruct (Z.eqb_spec (statusCode v) 200) as [-> | Hne]; [reflexivity |].
  destruct (statusCode v) as [| p | p]; trivial.
  repeat (destruct p as [p | p |]; try reflexivity;
          try (exfalso; apply Hne; reflexivity)).
Qed.


(** A valid token: the validator is asked and nothing else happens. *)
Lemma refresh_valid callback m v parsed :
  refresh_attempts (self m) <= 1 ->
  network (requests m) (validate_options (self m)) = Resolved v ->
  statusCode v = 200%Z ->
  JSON_parse_text (ToString (body v)) = inl parsed ->
  nullish parsed = false ->
  strict_equals_string (prop_value parsed "message")
                       "missing authorization token" = false ->
  _refresh inspect JSON_parse_text network callback m
  = (Ret tt,
     Machine (self m) (heap m) (S (requests m))
             (trace m ++ [Request (validate_options (self m))])).
Proof.
  intros Hle Hnet Hstatus Hparse Hnn Hmsg. unfold _refresh.
  rewrite bind_this. apply Nat.ltb_ge in Hle. rewrite Hle.
  cbn [when]. rewrite bind_ret. cbv zeta.
  unfold bind at 1.
  rewrite (validate_resolved _ _ _ Hnet Hparse Hnn Hmsg), Hstatus.
  reflexivity.
Qed.

(** A failed GET: the failure is logged and emitted, then the refresh path
    runs and the same GET is issued again. *)
Lemma get_failing_round fuel endpoint callback m r parsed :
  network (requests m) (get_options (self m) endpoint) = Resolved r ->
  (400 <= statusCode r)%Z ->
  JSON_parse_text (ToString (body r)) = inl parsed ->
  nullish parsed = false ->
  regexp_test (prop_value parsed "message") = false ->
  _get inspect JSON_parse_text network (S fuel) endpoint callback m
  = (_refresh inspect JSON_parse_text network NoCallback;;
     _get inspect JSON_parse_text network fuel endpoint callback)
      (Machine (self m) (heap m) (S (requests m))
               (trace m ++ get_failure_events (self m) endpoint r
                                              (prop_value parsed "message"))).
Proof.
  intros Hnet Hstatus Hparse Hnn Hre. cbn [_get].
  rewrite bind_this. cbv zeta.
  rewrite (fetch_resolved _ _ _ _ Hnet), (bind_JSON_parse _ _ _ _ Hparse),
    (bind_get_prop _ _ _ _ Hnn).
  apply Z.leb_le in Hstatus. rewrite Hstatus, Hre.
  cbn [when]. unfold get_failure_events.
  rewrite !bind_assoc, bind_ret. cbv beta.
  rewrite !bind_assoc, bind_log. cbv beta.
  rewrite !bind_assoc, bind_isListeningFor. cbn [self].
  destruct (existsb (String.eqb "error") (listeners (self m))) eqn:Hears;
    cbn [when].
  - rewrite bind_emit_heard by exact Hears.
    cbn [self heap requests trace]. do 2 f_equal.
    by rewrite <- !app_assoc.
  - rewrite bind_ret. cbn [self heap requests trace]. do 2 f_equal.
    by rewrite app_nil_r, <- !app_assoc.
Qed.

(** Every call of [_get] with fuel left issues its GET first. *)
Lemma get_issues_request fuel endpoint callback m :
  (trace m ++ [Request (get_options (self m) endpoint)])%list
    `prefix_of`
    trace (snd (_get inspect JSON_parse_text network (S fuel) endpoint callback m)).
Proof.
  cbn [_get]. rewrite bind_this. cbv zeta.
  match goal with
  | |- context [bind (catch (request network ?o) ?h) ?k m] =>
      assert (forall response, steady (k response)) as Hk
  end.
  { intros response. repeat first [ steady_step | apply steady_get ]. }
  unfold bind at 1, catch, request.
  destruct (network (requests m) (get_options (self m) endpoint)) as [r | err].
  - match goal with
    | |- context [snd (?c ?m1)] => apply (ev_trace _ _ (Hk r m1))
    end.
  - reflexivity.
Qed.

(** *** A failed GET with a token that is still valid *)

(** C2 (where the code departs from the description): when a GET fails
    with status >= 400 and the validator then reports the token valid, no
    refresh happens (the instance is unchanged, the only requests are the
    GET and the validation), but the failure is not handed to the caller:
    it is only logged and emitted, and the dispatcher goes on as a fresh
    [_get] of the same endpoint, whose first act is to issue the GET
    again. *)
Theorem get_valid_token_is_retried fuel endpoint callback m r parsed v vparsed :
  network (requests m) (get_options (self m) endpoint) = Resolved r ->
  (400 <= statusCode r)%Z ->
  JSON_parse_text (ToString (body r)) = inl parsed ->
  nullish parsed = false ->
  regexp_test (prop_value parsed "message") = false ->
  refresh_attempts (self m) <= 1 ->
  network (S (requests m)) (validate_options (self m)) = Resolved v ->
  statusCode v = 200%Z ->
  JSON_parse_text (ToString (body v)) = inl vparsed ->
  nullish vparsed = false ->
  strict_equals_string (prop_value vparsed "message")
                       "missing authorization token" = false ->
  let after_validation :=
    Machine (self m) (heap m) (S (S (requests m)))
            (trace m
               ++ get_failure_events (self m) endpoint r
                                     (prop_value parsed "message")
               ++ [Request (validate_options (self m))]) in
  _get inspect JSON_parse_text network (S (S fuel)) endpoint callback m
  = _get inspect JSON_parse_text network (S fuel) endpoint callback after_validation
  /\ (trace after_validation ++ [Request (get_options (self m) endpoint)])%list
       `prefix_of`
       trace (snd (_get inspect JSON_parse_text network (S (S fuel)) endpoint
                        callback m)).
Proof.
  intros Hnet Hstatus Hparse Hnn Hre Hle Hvnet Hvstatus Hvparse Hvnn Hvmsg.
  cbv zeta.
  assert (_get inspect JSON_parse_text network (S (S fuel)) endpoint callback m
          = _get inspect JSON_parse_text network (S fuel) endpoint callback
                 (Machine (self m) (heap m) (S (S (requests m)))
                          (trace m
                             ++ get_failure_events (self m) endpoint r
                                                   (prop_value parsed "message")
                             ++ [Request (validate_options (self m))])))
    as Hrun.
  { rewrite (get_failing_round _ _ _ _ _ _ Hnet Hstatus Hparse Hnn Hre).
    unfold bind at 1.
    rewrite (refresh_valid NoCallback _ v vparsed); trivial.
    cbn [self heap requests trace]. by rewrite <- app_assoc. }
  split; [exact Hrun |].
  rewrite Hrun.
  match goal with
  | |- context [_get _ _ _ (S fuel) endpoint callback ?m2] =>
      exact (get_issues_request fuel endpoint callback m2)
  end.
Qed.

(** *** The guard against repeated refreshes *)


(** In user mode a completed refresh is counted. *)
Lemma refresh_user_mode_counts m v vparsed tr :
  refresh_attempts (self m) <= 1 ->
  isApp (self m) = false ->
  network (requests m) (validate_options (self m)) = Resolved v ->
  statusCode v <> 200%Z ->
  JSON_parse_text (ToString (body v)) = inl vparsed ->
  nullish vparsed = false ->
  strict_equals_string (prop_value vparsed "message")
                       "missing authorization token" = false ->
  network (S (requests m)) (refresh_options (self m)) = Resolved tr ->
  nullish (body tr) = false ->
  _refresh inspect JSON_parse_text network NoCallback m
  = (Ret tt,
     Machine (set_refresh_attempts (refresh_attempts (self m) + 1)
                                   (refreshed_tokens (body tr) (self m)))
             (heap m) (S (S (requests m)))
             (trace m
                ++ [Request (validate_options (self m));
                    Request (refresh_options (self m))]
                ++ (if existsb (String.eqb "refresh") (listeners (self m))
                    then [Emit "refresh" [body tr]] else []))).
Proof.
  intros Hle Huser Hvnet Hvstatus Hvparse Hvnn Hvmsg Htnet Htnn.
  unfold _refresh. rewrite bind_this.
  apply Nat.ltb_ge in Hle. rewrite Hle. cbn [when]. rewrite bind_ret. cbv zeta.
  unfold bind at 1.
  rewrite (validate_resolved _ _ _ Hvnet Hvparse Hvnn Hvmsg).
  apply Z.eqb_neq in Hvstatus. rewrite Hvstatus. cbn [truthy].
  rewrite bind_this. cbn [self]. rewrite Huser.
  rewrite (fetch_resolved_at _ _ _ _ _ _ _ Htnet). cbv zeta.
  rewrite !(bind_get_prop _ _ _ _ Htnn).
  unfold refreshed_tokens.
  destruct (truthy (prop_value (body tr) "access_token"));
    destruct (truthy (prop_value (body tr) "refresh_token"));
    cbn [when]; rewrite ?bind_ret, ?bind_update; cbv beta;
    rewrite ?bind_ret, ?bind_update; cbv beta;
    rewrite bind_isListeningFor; cbn [self listeners set_access_token
                                           set_refresh_token];
    destruct (existsb (String.eqb "refresh") (listeners (self m))) eqn:Hears;
    cbn [when cb_truthy];
    rewrite ?bind_ret; cbv beta;
    rewrite ?bind_emit_heard by exact Hears;
    rewrite ?bind_ret, bind_this, bind_update; cbv beta;
    rewrite ?bind_ret; cbn; rewrite <- ?app_assoc; reflexivity.
Qed.

(** In app mode a completed refresh leaves the counter where it was. *)
Lemma refresh_app_mode_does_not_count m v vparsed tr result :
  refresh_attempts (self m) <= 1 ->
  isApp (self m) = true ->
  network (requests m) (validate_options (self m)) = Resolved v ->
  statusCode v <> 200%Z ->
  JSON_parse_text (ToString (body v)) = inl vparsed ->
  nullish vparsed = false ->
  strict_equals_string (prop_value vparsed "message")
                       "missing authorization token" = false ->
  network (S (requests m)) (app_token_options (self m)) = Resolved tr ->
  JSON_parse_text (ToString (body tr)) = inl result ->
  nullish result = false ->
  _refresh inspect JSON_parse_text network NoCallback m
  = (Ret tt,
     Machine (set_access_token (prop_value result "access_token") (self m))
             (heap m) (S (S (requests m)))
             (trace m
                ++ [Request (validate_options (self m));
                    Request (app_token_options (self m))]
                ++ (if existsb (String.eqb "refresh") (listeners (self m))
                    then [Emit "refresh" [result]] else []))).
Proof.
  intros Hle Happ Hvnet Hvstatus Hvparse Hvnn Hvmsg Htnet Htparse Htnn.
  unfold _refresh. rewrite bind_this.
  apply Nat.ltb_ge in Hle. rewrite Hle. cbn [when]. rewrite bind_ret. cbv zeta.
  unfold bind at 1.
  rewrite (validate_resolved _ _ _ Hvnet Hvparse Hvnn Hvmsg).
  apply Z.eqb_neq in Hvstatus. rewrite Hvstatus. cbn [truthy].
  rewrite bind_this. cbn [self]. rewrite Happ.
  unfold _getAppAccessToken.
  unfold bind at 1, catch at 1. rewrite bind_this. cbv zeta. cbn [self].
  rewrite (fetch_resolved_at _ _ _ _ _ _ _ Htnet),
    (bind_JSON_parse _ _ _ _ Htparse).
  cbn [cb_truthy ret]. rewrite (bind_get_prop _ _ _ _ Htnn).
  rewrite bind_update. cbn [self heap requests trace].
  destruct (existsb (String.eqb "refresh") (listeners (self m))) eqn:Hears.
  - rewrite bind_emit_heard by exact Hears.
    cbn. by rewrite <- !app_assoc.
  - rewrite bind_emit_unheard by (trivial; exact Hears).
    cbn. rewrite ?app_nil_r, <- ?app_assoc. reflexivity.
Qed.

(** The counter never decreases and never passes 2, whatever the network
    answers. *)
Lemma get_keeps_counter_bounded fuel endpoint callback m :
  let m' := snd (_get inspect JSON_parse_text network fuel endpoint callback m) in
  refresh_attempts (self m) <= refresh_attempts (self m')
  /\ (refresh_attempts (self m) <= 2 -> refresh_attempts (self m') <= 2).
Proof.
  cbv zeta. destruct (steady_get fuel endpoint callback m). lia.
Qed.

(** *** POST *)

(** A 401 answer to a POST never leads to a refresh or a second POST: the
    method throws after its one request. *)
Lemma post_unauthorized_throws endpoint data callback m r :
  network (requests m) (post_options (self m) endpoint data) = Resolved r ->
  statusCode r = 401%Z ->
  exists e tr,
    _post inspect JSON_parse_text network endpoint data callback m
    = (Throw e, Machine (self m) (heap m) (S (requests m)) tr).
Proof.
  intros Hnet Hstatus. unfold _post. rewrite bind_this. cbv zeta.
  rewrite (fetch_resolved _ _ _ _ Hnet), Hstatus.
  unfold bind at 1, JSON_parse at 1.
  destruct (JSON_parse_text (ToString (body r))) as [parsed | msg];
    [| cbn; eauto].
  cbn [ret]. unfold bind at 1, JSON_parse at 1.
  destruct (JSON_parse_text (ToString parsed)) as [reparsed | msg];
    [| cbn; eauto].
  cbn [ret]. unfold bind at 1, get_prop at 1.
  destruct (nullish reparsed); [cbn; eauto |].
  cbn [ret]. change (400 <=? 401)%Z with true. cbn [when].
  rewrite !bind_assoc, bind_log. cbv beta. cbn [self heap requests trace].
  destruct (existsb (String.eqb "error") (listeners (self m))) eqn:Hears.
  - rewrite ?bind_assoc, bind_emit_heard by exact Hears. cbn. eauto.
  - unfold emit. rewrite ?bind_assoc, bind_this. cbn [self].
    rewrite Hears. cbn. eauto.
Qed.

(** *** One rejected token *)

(** A GET answered below 400 returns the parsed body. *)
Lemma get_succeeds fuel endpoint m r parsed :
  network (requests m) (get_options (self m) endpoint) = Resolved r ->
  (statusCode r < 400)%Z ->
  JSON_parse_text (ToString (body r)) = inl parsed ->
  nullish parsed = false ->
  _get inspect JSON_parse_text network (S fuel) endpoint NoCallback m
  = (Ret parsed,
     Machine (self m) (heap m) (S (requests m))
             (trace m ++ [Request (get_options (self m) endpoint)])).
Proof.
  intros Hnet Hstatus Hparse Hnn. cbn [_get].
  rewrite bind_this. cbv zeta.
  rewrite (fetch_resolved _ _ _ _ Hnet), (bind_JSON_parse _ _ _ _ Hparse),
    (bind_get_prop _ _ _ _ Hnn).
  apply Z.leb_gt in Hstatus. rewrite Hstatus. reflexivity.
Qed.

(** In user mode, a failed GET whose token the validator rejects is followed
    by one refresh and one more GET; when that one succeeds its body is the
    result.  The log is exactly: the GET and its failure, the validation,
    the token request, the GET again. *)
Lemma get_refreshes_once_in_user_mode
      fuel endpoint m r parsed v vparsed tr r2 parsed2 :
  network (requests m) (get_options (self m) endpoint) = Resolved r ->
  (400 <= statusCode r)%Z ->
  JSON_parse_text (ToString (body r)) = inl parsed ->
  nullish parsed = false ->
  regexp_test (prop_value parsed "message") = false ->
  refresh_attempts (self m) <= 1 ->
  isApp (self m) = false ->
  network (S (requests m)) (validate_options (self m)) = Resolved v ->
  statusCode v <> 200%Z ->
  JSON_parse_text (ToString (body v)) = inl vparsed ->
  nullish vparsed = false ->
  strict_equals_string (prop_value vparsed "message")
                       "missing authorization token" = false ->
  network (S (S (requests m))) (refresh_options (self m)) = Resolved tr ->
  nullish (body tr) = false ->
  let refreshed :=
    set_refresh_attempts (refresh_attempts (self m) + 1)
                         (refreshed_tokens (body tr) (self m)) in
  network (S (S (S (requests m)))) (get_options refreshed endpoint)
  = Resolved r2 ->
  (statusCode r2 < 400)%Z ->
  JSON_parse_text (ToString (body r2)) = inl parsed2 ->
  nullish parsed2 = false ->
  _get inspect JSON_parse_text network (S (S fuel)) endpoint NoCallback m
  = (Ret parsed2,
     Machine refreshed (heap m) (S (S (S (S (requests m)))))
             (((trace m
                  ++ get_failure_events (self m) endpoint r
                                        (prop_value parsed "message"))
                 ++ [Request (validate_options (self m));
                     Request (refresh_options (self m))]
                 ++ (if existsb (String.eqb "refresh") (listeners (self m))
                     then [Emit "refresh" [body tr]] else []))
                ++ [Request (get_options refreshed endpoint)])).
Proof.
  intros Hnet Hstatus Hparse Hnn Hre Hle Huser Hvnet Hvstatus Hvparse Hvnn
         Hvmsg Htnet Htnn refreshed Hnet2 Hstatus2 Hparse2 Hnn2.
  rewrite (get_failing_round _ _ _ _ _ _ Hnet Hstatus Hparse Hnn Hre).
  unfold bind at 1.
  match goal with
  | |- context [_refresh _ _ _ NoCallback ?m1] =>
      rewrite (refresh_user_mode_counts m1 v vparsed tr Hle Huser Hvnet
                 Hvstatus Hvparse Hvnn Hvmsg Htnet Htnn)
  end.
  cbn [self heap requests trace].
  match goal with
  | |- _get _ _ _ (S fuel) endpoint NoCallback ?m2 = _ =>
      rewrite (get_succeeds fuel endpoint m2 r2 parsed2 Hnet2 Hstatus2
                 Hparse2 Hnn2)
  end.
  reflexivity.
Qed.

End Properties.

(** ** The id sniffer *)







(** ** The query of getUsers *)

Lemma string_app_empty_r s : s +:+ "" = s.
Proof.
  induction s as [| c s IH]; [reflexivity |].
  change (String c (s +:+ "") = String c s). by rewrite IH.
Qed.

Lemma string_app_assoc s1 s2 s3 : (s1 +:+ s2) +:+ s3 = s1 +:+ (s2 +:+ s3).
Proof.
  induction s1 as [| c s1 IH]; [reflexivity |].
  change (String c ((s1 +:+ s2) +:+ s3) = String c (s1 +:+ (s2 +:+ s3))).
  by rewrite IH.
Qed.

Lemma indexOf_from_ge i ids x :
  indexOf_from i ids x = (-1)%Z \/ (i <= indexOf_from i ids x)%Z.
Proof.
  revert i. induction ids as [| y ids IH]; intros i; cbn; [by left |].
  destruct (String.eqb y x); [right; lia |].
  destruct (IH (i + 1)%Z); [by left | right; lia].
Qed.

(** The position test of the loop: true exactly for the strings equal to the
    first element. *)
Lemma indexOf_is_zero id ids x :
  (indexOf (id :: ids) x =? 0)%Z = String.eqb id x.
Proof.
  unfold indexOf. cbn [indexOf_from].
  destruct (String.eqb id x); [reflexivity |].
  destruct (indexOf_from_ge (0 + 1) ids x) as [-> | H]; [reflexivity |].
  apply Z.eqb_neq. lia.
Qed.

(** The loop over ids none of which equals the first one. *)
Lemma users_query_loop id ids (l : list string) acc n :
  Forall (fun x => x <> id) l ->
  fold_left
    (fun query x =>
       let type := id_type (JStr x) in
       if (indexOf (id :: ids) x =? 0)%Z
       then query +:+ "?" +:+ type +:+ "=" +:+ x
       else query +:+ "&" +:+ type +:+ "=" +:+ x) l acc
  = acc +:+ fold_right String.append ""
                       (imap (fun i x => query_parameter (S n + i) x) l).
Proof.
  revert acc n. induction l as [| x l IH]; intros acc n Hall;
    cbn [fold_left imap fold_right].
  - by rewrite string_app_empty_r.
  - apply Forall_cons in Hall. destruct Hall as [Hx Hall].
    rewrite indexOf_is_zero.
    assert (String.eqb id x = false) as ->
        by (apply String.eqb_neq; congruence).
    cbv zeta. rewrite (IH _ (S n) Hall), string_app_assoc. f_equal.
Qed.

(** When the first id does not occur again, the query is the one the
    description promises. *)
Lemma users_query_when_first_is_unique id ids :
  id ∉ ids -> users_query (Many (id :: ids)) = described_query (id :: ids).
Proof.
  intros Hnot. unfold users_query, described_query.
  cbn [fold_left imap fold_right]. rewrite indexOf_is_zero, String.eqb_refl.
  rewrite (users_query_loop id ids ids _ 0).
  - unfold query_parameter at 1. cbn [Nat.eqb String.append]. reflexivity.
  - apply Forall_forall. intros x Hx ->. contradiction.
Qed.

(** ** Refreshes at concrete inputs *)

(** One rejected token, then success: one refresh and one retried GET. *)
Example one_rejected_token_one_refresh_one_retry :
  let run :=
    _get sample_inspect sample_JSON_parse
         (script [unauthorized; unauthorized; token_object; ok])
         2 "/users" NoCallback (sample_machine false 0) in
  fst run = Ret (JObj [])
  /\ requests_to token_url (trace (snd run)) = 1
  /\ requests_to users_url (trace (snd run)) = 2
  /\ access_token (self (snd run)) = JStr "fresh".
Proof. vm_compute. repeat split. Qed.

(** A token rejected again and again: the second failure after two
    refreshes is fatal and the GET is not issued a fourth time. *)
Example user_mode_get_stops_after_two_refreshes :
  let world := script [unauthorized; unauthorized; token_object;
                       unauthorized; unauthorized; token_object;
                       unauthorized; unauthorized; token_object;
                       ok] in
  let run := _get sample_inspect sample_JSON_parse world 4 "/users" NoCallback
                  (sample_machine false 0) in
  fst run = Throw (Error "Refresh attempts have failed. Use the previously logged information as help.")
  /\ requests_to token_url (trace (snd run)) = 2
  /\ requests_to users_url (trace (snd run)) = 3
  /\ refresh_attempts (self (snd run)) = 2.
Proof. vm_compute. repeat split. Qed.

(** Three calls of [getUsers], one after another, each of which meets one
    rejected token: the third one is fatal. *)
Example user_mode_refreshes_are_counted :
  let world := script [unauthorized; unauthorized; token_object; ok;
                       unauthorized; unauthorized; token_object; ok;
                       unauthorized; unauthorized; token_object; ok] in
  let call := getUsers sample_inspect sample_JSON_parse world 2 (Single "ninja") NoCallback in
  let run := (call;; call;; call) (sample_machine false 0) in
  fst run = Throw (Error "Refresh attempts have failed. Use the previously logged information as help.")
  /\ requests_to token_url (trace (snd run)) = 2
  /\ refresh_attempts (self (snd run)) = 2.
Proof. vm_compute. repeat split. Qed.

(** When the token endpoint answers the [json: true] request of app mode
    with an object, [_getAppAccessToken] parses it a second time and the
    refresh throws. *)
Example app_mode_refresh_of_an_object_body_throws :
  let world := script [unauthorized; token_object] in
  let run := _refresh sample_inspect sample_JSON_parse world NoCallback (sample_machine true 0) in
  fst run = Throw (Error "SyntaxError: Unexpected token")
  /\ access_token (self (snd run)) = JStr "stale".
Proof. vm_compute. repeat split. Qed.

(** ** POST and a 401 *)

(** C3 (where the code departs from the description): a POST answered with
    401 is neither followed by a refresh nor posted again.  With a JSON body the
    second [JSON.parse] throws; with a body that survives both parses the
    call of the field [refresh_token] throws.  Either way one request is
    issued, none of them to the token endpoint, and the tokens are as
    before. *)
Theorem post_unauthorized_is_not_retried :
  let data := JObj [("title", JStr "clip")] in
  let run1 := _post sample_inspect sample_JSON_parse (script [unauthorized; token_object; ok])
                    "/clips" data NoCallback listening_machine in
  let run2 := _post sample_inspect sample_JSON_parse
                    (script [Resolved (Response 401 "Unauthorized" (JNum "5"));
                             token_object; ok])
                    "/clips" data NoCallback listening_machine in
  (exists msg, fst run1 = Throw (SyntaxError msg))
  /\ requests (snd run1) = 1
  /\ self (snd run1) = self listening_machine
  /\ fst run2 = Throw (TypeError "this.refresh_token is not a function")
  /\ requests (snd run2) = 1
  /\ requests_to token_url (trace (snd run2)) = 0
  /\ self (snd run2) = self listening_machine.
Proof. vm_compute. repeat split. eexists. reflexivity. Qed.

(** ** A first id that comes again *)

(** C4 (where the code departs from the description): when the first id
    occurs again later in the list, the later occurrence is joined with a
    question mark too. *)
Theorem users_query_repeated_first_id :
  users_query (Many ["ninja"; "shroud"; "ninja"])
  = "?login=ninja&login=shroud?login=ninja"
  /\ described_query ["ninja"; "shroud"; "ninja"]
     = "?login=ninja&login=shroud&login=ninja"
  /\ request_url <$> trace (snd (getUsers sample_inspect sample_JSON_parse (script [ok]) 1
                                  (Many ["ninja"; "shroud"; "ninja"])
                                  NoCallback (sample_machine false 0)))
     = [Some "https://api.twitch.tv/helix/users?login=ninja&login=shroud?login=ninja"].
Proof. vm_compute. repeat split. Qed.

(** ** Where the description fails as stated *)

(** C2 at a concrete input: the GET is answered 404, the validator answers
    200 (token valid), and yet the GET is issued a second time and the
    caller receives the body of the second answer, not the failure. *)
Lemma get_valid_token_counterexample :
  let world := script [not_found; ok; ok] in
  let m := sample_machine false 0 in
  let run := _get sample_inspect sample_JSON_parse world 2 "/users" NoCallback m in
  world 0 (get_options (self m) "/users") = not_found
  /\ fst (_validate sample_JSON_parse world NoCallback
                    (Machine (self m) (heap m) 1 []))
     = Ret (JBool true)
  /\ fst run = Ret (JObj [])
  /\ omap request_url (trace (snd run)) = [users_url; validate_url; users_url]
  /\ self (snd run) = self m.
Proof. vm_compute. repeat split. Qed.


(** C8 as stated fails: in app mode the call fails with the error of
    [getCurrentUser], which is not a ReferenceError. *)
Lemma getUsersSubStatus_counterexample :
  exists e,
    fst (getUsersSubStatus sample_inspect sample_JSON_parse (script []) 1 (Single "42")
                           NoCallback (sample_machine true 0))
    = Throw e
    /\ exn_name e = "Error"
    /\ exn_name e <> "ReferenceError".
Proof. eexists. vm_compute. repeat split. discriminate. Qed.

(** ** The theorems at concrete inputs *)

Example constructed_in_app_mode :
  isApp (self (constructed true)) = true
  /\ refresh_attempts (self (constructed true)) = 0
  /\ trace (constructed true) = [Detached InitAppToken].
Proof. vm_compute. repeat split. Qed.

Example constructed_in_user_mode :
  isApp (self (constructed false)) = false
  /\ refresh_attempts (self (constructed false)) = 0
  /\ trace (constructed false)
     = [Detached (GetTask "/users" (Function "constructor.ready")); SetApiUser].
Proof. vm_compute. repeat split. Qed.

Example conflicting_options_are_fatal :
  exists msg,
    fst (constructor sample_inspect sample_JSON_parse (inl JUndefined)
                     (inl JUndefined) (fun _ => None) (script [])
                     (Some (Config (JBool true) (JStr "token") JUndefined
                                   (JStr "cid") (JStr "secret")))
                     (sample_machine false 0))
    = Throw (Error msg).
Proof. eexists. vm_compute. reflexivity. Qed.

Lemma getCurrentUser_app_mode_throws_witness :
  getCurrentUser sample_inspect sample_JSON_parse (script [ok]) 3 (Function "show")
                 (constructed true)
  = (Throw (Error "Cannot get the current user when using an application token. Use access_token and refresh_token instead."),
     constructed true).
Proof.
  apply (getCurrentUser_app_mode_throws sample_inspect sample_JSON_parse (script [ok]) 3
           (Function "show") (constructed true)).
  reflexivity.
Defined.

Lemma get_valid_token_is_retried_witness :
  let m := sample_machine false 0 in
  let world := script [not_found; ok; ok] in
  let after_validation :=
    Machine (self m) (heap m) 2
            (get_failure_events (self m) "/users"
                                (Response 404 "Not Found"
                                          (JStr (json_field "message" "not found")))
                                (JStr "not found")
               ++ [Request (validate_options (self m))]) in
  _get sample_inspect sample_JSON_parse world 2 "/users" NoCallback m
  = _get sample_inspect sample_JSON_parse world 1 "/users" NoCallback after_validation
  /\ (trace after_validation ++ [Request (get_options (self m) "/users")])%list
       `prefix_of`
       trace (snd (_get sample_inspect sample_JSON_parse world 2 "/users" NoCallback m)).
Proof.
  apply (get_valid_token_is_retried sample_inspect sample_JSON_parse
           (script [not_found; ok; ok]) 0 "/users" NoCallback
           (sample_machine false 0)
           (Response 404 "Not Found" (JStr (json_field "message" "not found")))
           (JObj [("message", JStr "not found")])
           (Response 200 "OK" (JStr "{}"))
           (JObj []));
    try reflexivity; vm_compute; try lia; discriminate.
Defined.

Lemma getUsersSubStatus_never_succeeds_witness :
  getUsersSubStatus sample_inspect sample_JSON_parse (script [ok; ok]) 3
                    (Many ["44322889"; "12826"]) NoCallback
                    (sample_machine false 0)
  = (Throw (ReferenceError "body is not defined"),
     Machine (sample_instance false 0) ∅ 0
             [Detached (GetTask "/users" NotCallable)]).
Proof.
  destruct (getUsersSubStatus_never_succeeds sample_inspect sample_JSON_parse
              (script [ok; ok]) 3 (Many ["44322889"; "12826"]) NoCallback
              (sample_machine false 0)) as (_ & _ & _ & H).
  apply H; reflexivity.
Defined.

Lemma getStreams_deletes_channels_witness :
  let run := getStreams sample_inspect sample_JSON_parse sample_parseOptions (script [ok]) 1
                        (Some 7) NoCallback streams_machine in
  heap streams_machine !!! 7 = [("channels", JStr "ninja"); ("first", JNum "5")]
  /\ heap (snd run) !!! 7 = [("first", JNum "5")]
  /\ request_url <$> trace (snd run)
     = [Some "https://api.twitch.tv/helix/streams?first=5&user_login=ninja&"].
Proof.
  cbv zeta.
  destruct (getStreams_deletes_channels sample_inspect sample_JSON_parse sample_parseOptions
              (script [ok]) 1 7 NoCallback streams_machine)
    as (Hrun & Hheap & _ & _).
  split; [reflexivity |]. split.
  - rewrite Hheap. reflexivity.
  - rewrite Hrun. vm_compute. reflexivity.
Defined.

(** * Further properties of the dispatch layer *)

Section Dispatch.

Variable inspect : jsval -> string.
Variable JSON_parse_text : string -> jsval + string.
Variable parseOptions : obj -> string.
Variable network : nat -> obj -> outcome.

#[local] Arguments existsb : simpl never.
#[local] Arguments String.eqb : simpl never.
#[local] Arguments String.append : simpl never.

Lemma bind_get_prop_nullish {A} v key (k : jsval -> M A) m :
  nullish v = true ->
  bind (get_prop v key) k m
  = (Throw (TypeError ("Cannot read properties of " +:+ ToString v
                       +:+ " (reading '" +:+ key +:+ "')")), m).
Proof. intros H. unfold bind, get_prop. by rewrite H. Qed.

Lemma bind_JSON_parse_fails {A} v msg (k : jsval -> M A) m :
  JSON_parse_text (ToString v) = inr msg ->
  bind (JSON_parse JSON_parse_text v) k m = (Throw (SyntaxError msg), m).
Proof. intros H. unfold bind, JSON_parse. by rewrite H. Qed.

Lemma fetch_rejected {A} options (k : response -> M A) m err :
  network (requests m) options = Rejected err ->
  bind (catch (request network options)
              (fun err => _error (exn_to_string err))) k m
  = (Throw (Error (exn_to_string err)),
     Machine (self m) (heap m) (S (requests m))
             (trace m ++ [Request options])).
Proof. intros H. unfold bind, catch, request. by rewrite H. Qed.

(** ** GET: the ways out of one call *)

(** X1: a GET answered below 400 with a body that parses issues that one
    request, leaves the instance alone, and hands the parsed body over: as
    the result when there is no callback, to the callback (with the
    response) otherwise, the result then being [undefined]. *)
Theorem get_hands_over_the_body fuel endpoint callback m r parsed :
  network (requests m) (get_options (self m) endpoint) = Resolved r ->
  (statusCode r < 400)%Z ->
  JSON_parse_text (ToString (body r)) = inl parsed ->
  nullish parsed = false ->
  callback <> NotCallable ->
  _get inspect JSON_parse_text network (S fuel) endpoint callback m
  = (match callback with
     | NoCallback => Ret parsed
     | _ => Ret JUndefined
     end,
     Machine (self m) (heap m) (S (requests m))
             (trace m
                ++ [Request (get_options (self m) endpoint)]
                ++ match callback with
                   | Function f => [Invoke f [ArgValue parsed; ArgResponse r]]
                   | _ => []
                   end)).
Proof.
  intros Hnet Hstatus Hparse Hnn Hcb. cbn [_get].
  rewrite bind_this. cbv zeta.
  rewrite (fetch_resolved network _ _ _ _ Hnet),
    (bind_JSON_parse JSON_parse_text _ _ _ _ Hparse),
    (bind_get_prop _ _ _ _ Hnn).
  apply Z.leb_gt in Hstatus. rewrite Hstatus. cbn [when]. rewrite bind_ret.
  destruct callback as [| f |]; [| | congruence]; cbn;
    rewrite ?app_nil_r, <- ?app_assoc; reflexivity.
Qed.

(** X2: a GET answered with status >= 400 whose message matches
    [/\bValid OAuth token with/i] is fatal at once: the message is thrown
    as an Error, nothing is logged or emitted, the validator is not asked,
    no refresh is made and the GET is not issued again. *)
Theorem get_token_pattern_is_fatal fuel endpoint callback m r parsed :
  network (requests m) (get_options (self m) endpoint) = Resolved r ->
  (400 <= statusCode r)%Z ->
  JSON_parse_text (ToString (body r)) = inl parsed ->
  nullish parsed = false ->
  regexp_test (prop_value parsed "message") = true ->
  _get inspect JSON_parse_text network (S fuel) endpoint callback m
  = (Throw (Error (ToString (prop_value parsed "message"))),
     Machine (self m) (heap m) (S (requests m))
             (trace m ++ [Request (get_options (self m) endpoint)])).
Proof.
  intros Hnet Hstatus Hparse Hnn Hre. cbn [_get].
  rewrite bind_this. cbv zeta.
  rewrite (fetch_resolved network _ _ _ _ Hnet),
    (bind_JSON_parse JSON_parse_text _ _ _ _ Hparse),
    (bind_get_prop _ _ _ _ Hnn).
  apply Z.leb_le in Hstatus. rewrite Hstatus, Hre. reflexivity.
Qed.

(** X3: when the request itself fails (the promise rejects), [_get] throws
    an Error whose message is the rejection printed as a string; the failed
    request is the only one, there is no refresh and no second try. *)
Theorem get_transport_failure_is_thrown fuel endpoint callback m err :
  network (requests m) (get_options (self m) endpoint) = Rejected err ->
  _get inspect JSON_parse_text network (S fuel) endpoint callback m
  = (Throw (Error (exn_to_string err)),
     Machine (self m) (heap m) (S (requests m))
             (trace m ++ [Request (get_options (self m) endpoint)])).
Proof.
  intros Hnet. cbn [_get]. rewrite bind_this. cbv zeta.
  by rewrite (fetch_rejected _ _ _ _ Hnet).
Qed.

(** X4: the body is parsed and its [message] read before the status is
    looked at, so whatever the status, even 200, a body that is not JSON
    throws the SyntaxError of [JSON.parse] and the body [null] throws a
    TypeError; in both cases after the one request and without a refresh. *)
Theorem get_unreadable_body_throws fuel endpoint callback m r :
  network (requests m) (get_options (self m) endpoint) = Resolved r ->
  let after := Machine (self m) (heap m) (S (requests m))
                       (trace m ++ [Request (get_options (self m) endpoint)]) in
  let run := _get inspect JSON_parse_text network (S fuel) endpoint callback m in
  match JSON_parse_text (ToString (body r)) with
  | inr msg => run = (Throw (SyntaxError msg), after)
  | inl parsed =>
      nullish parsed = true ->
      snd run = after
      /\ exists msg, fst run = Throw (TypeError msg)
  end.
Proof.
  intros Hnet. cbv zeta. cbn [_get]. rewrite bind_this. cbv zeta.
  rewrite (fetch_resolved network _ _ _ _ Hnet).
  destruct (JSON_parse_text (ToString (body r))) as [parsed | msg] eqn:Hparse.
  - intros Hnull.
    rewrite (bind_JSON_parse JSON_parse_text _ _ _ _ Hparse),
      (bind_get_prop_nullish _ _ _ _ Hnull).
    split; [reflexivity | eexists; reflexivity].
  - by rewrite (bind_JSON_parse_fails _ _ _ _ Hparse).
Qed.

(** ** The validator *)

(** X5: the validator reports the token valid exactly when the status of
    the validation answer is 200 (401 and every other status mean invalid);
    it issues that one request and leaves the instance alone. *)
Theorem validate_is_valid_only_on_200 m v parsed :
  network (requests m) (validate_options (self m)) = Resolved v ->
  JSON_parse_text (ToString (body v)) = inl parsed ->
  nullish parsed = false ->
  strict_equals_string (prop_value parsed "message")
                       "missing authorization token" = false ->
  exists valid,
    _validate JSON_parse_text network NoCallback m
    = (Ret (JBool valid),
       Machine (self m) (heap m) (S (requests m))
               (trace m ++ [Request (validate_options (self m))]))
    /\ (valid = true <-> statusCode v = 200%Z).
Proof.
  intros Hnet Hparse Hnn Hmsg.
  exists (statusCode v =? 200)%Z. split.
  - by apply validate_resolved with (parsed := parsed).
  - apply Z.eqb_eq.
Qed.

(** X6: an answer of the validation endpoint whose message is [missing
    authorization token] is fatal whatever its status: the validator, and
    with it the refresh path, throws that message as an Error and requests
    no new token. *)
Theorem validate_missing_token_is_fatal callback m v parsed :
  refresh_attempts (self m) <= 1 ->
  network (requests m) (validate_options (self m)) = Resolved v ->
  JSON_parse_text (ToString (body v)) = inl parsed ->
  prop_value parsed "message" = JStr "missing authorization token" ->
  let after := Machine (self m) (heap m) (S (requests m))
                       (trace m ++ [Request (validate_options (self m))]) in
  _validate JSON_parse_text network callback m
  = (Throw (Error "missing authorization token"), after)
  /\ _refresh inspect JSON_parse_text network callback m
     = (Throw (Error "missing authorization token"), after).
Proof.
  intros Hle Hnet Hparse Hmsg. cbv zeta.
  assert (nullish parsed = false) as Hnn
      by (destruct parsed; try discriminate Hmsg; reflexivity).
  assert (forall cb, _validate JSON_parse_text network cb m
          = (Throw (Error "missing authorization token"),
             Machine (self m) (heap m) (S (requests m))
                     (trace m ++ [Request (validate_options (self m))])))
    as Hvalidate.
  { intros cb. unfold _validate. rewrite bind_this. cbv zeta.
    rewrite (fetch_resolved network _ _ _ _ Hnet),
      (bind_JSON_parse JSON_parse_text _ _ _ _ Hparse),
      (bind_get_prop _ _ _ _ Hnn), Hmsg.
    reflexivity. }
  split; [apply Hvalidate |].
  unfold _refresh. rewrite bind_this.
  apply Nat.ltb_ge in Hle. rewrite Hle. cbn [when]. rewrite bind_ret.
  cbv zeta. unfold bind at 1. by rewrite Hvalidate.
Qed.

(** ** GET: the retry loop *)



(** One round of the loop in user mode with a rejected token. *)
Lemma get_round_in_user_mode fuel endpoint callback m r parsed v vparsed tr :
  network (requests m) (get_options (self m) endpoint) = Resolved r ->
  (400 <= statusCode r)%Z ->
  JSON_parse_text (ToString (body r)) = inl parsed ->
  nullish parsed = false ->
  regexp_test (prop_value parsed "message") = false ->
  refresh_attempts (self m) <= 1 ->
  isApp (self m) = false ->
  network (S (requests m)) (validate_options (self m)) = Resolved v ->
  statusCode v <> 200%Z ->
  JSON_parse_text (ToString (body v)) = inl vparsed ->
  nullish vparsed = false ->
  strict_equals_string (prop_value vparsed "message")
                       "missing authorization token" = false ->
  network (S (S (requests m))) (refresh_options (self m)) = Resolved tr ->
  nullish (body tr) = false ->
  exists events,
    _get inspect JSON_parse_text network (S fuel) endpoint callback m
    = _get inspect JSON_parse_text network fuel endpoint callback
           (Machine (set_refresh_attempts
                       (refresh_attempts (self m) + 1)
                       (refreshed_tokens (body tr) (self m)))
                    (heap m) (S (S (S (requests m)))) events).
Proof.
  intros Hnet Hstatus Hparse Hnn Hre Hle Huser Hvnet Hvstatus Hvparse Hvnn
         Hvmsg Htnet Htnn.
  rewrite (get_failing_round inspect JSON_parse_text network _ _ _ _ _ _
             Hnet Hstatus Hparse Hnn Hre).
  unfold bind at 1.
  match goal with
  | |- context [_refresh _ _ _ NoCallback ?m1] =>
      rewrite (refresh_user_mode_counts inspect JSON_parse_text network m1 v vparsed tr
                 Hle Huser Hvnet Hvstatus Hvparse Hvnn Hvmsg Htnet Htnn)
  end.
  cbn [self heap requests trace]. eauto.
Qed.


(** ** The refresh path *)

(** X9: a refresh in user mode overwrites each token only with a truthy
    value of the token answer: an answer without [access_token] (an error
    answer, say) leaves both tokens as they were.  Either way the refresh
    returns normally, is counted, and has cost two requests. *)
Theorem refresh_overwrites_only_what_it_gets m v vparsed tr :
  refresh_attempts (self m) <= 1 ->
  isApp (self m) = false ->
  network (requests m) (validate_options (self m)) = Resolved v ->
  statusCode v <> 200%Z ->
  JSON_parse_text (ToString (body v)) = inl vparsed ->
  nullish vparsed = false ->
  strict_equals_string (prop_value vparsed "message")
                       "missing authorization token" = false ->
  network (S (requests m)) (refresh_options (self m)) = Resolved tr ->
  nullish (body tr) = false ->
  let run := _refresh inspect JSON_parse_text network NoCallback m in
  let new_access := prop_value (body tr) "access_token" in
  let new_refresh := prop_value (body tr) "refresh_token" in
  fst run = Ret tt
  /\ access_token (self (snd run))
     = (if truthy new_access then new_access else access_token (self m))
  /\ refresh_token (self (snd run))
     = (if truthy new_refresh then new_refresh else refresh_token (self m))
  /\ refresh_attempts (self (snd run)) = refresh_attempts (self m) + 1
  /\ requests (snd run) = requests m + 2.
Proof.
  intros Hle Huser Hvnet Hvstatus Hvparse Hvnn Hvmsg Htnet Htnn. cbv zeta.
  rewrite (refresh_user_mode_counts inspect JSON_parse_text network m v vparsed tr
             Hle Huser Hvnet Hvstatus Hvparse Hvnn Hvmsg Htnet Htnn).
  unfold refreshed_tokens.
  destruct (truthy (prop_value (body tr) "access_token"));
    destruct (truthy (prop_value (body tr) "refresh_token"));
    cbn; repeat split; lia.
Qed.

(** X10: after a refresh the GET is issued again with the new token: in user
    mode, when the token answer carries an access token and the second GET
    succeeds, the result is the body of the second answer, the instance
    holds the new token, and the last request of the run bears it in its
    [Authorization] header. *)
Theorem get_retries_with_the_new_token
        fuel endpoint m r parsed v vparsed tr r2 parsed2 :
  network (requests m) (get_options (self m) endpoint) = Resolved r ->
  (400 <= statusCode r)%Z ->
  JSON_parse_text (ToString (body r)) = inl parsed ->
  nullish parsed = false ->
  regexp_test (prop_value parsed "message") = false ->
  refresh_attempts (self m) <= 1 ->
  isApp (self m) = false ->
  network (S (requests m)) (validate_options (self m)) = Resolved v ->
  statusCode v <> 200%Z ->
  JSON_parse_text (ToString (body v)) = inl vparsed ->
  nullish vparsed = false ->
  strict_equals_string (prop_value vparsed "message")
                       "missing authorization token" = false ->
  network (S (S (requests m))) (refresh_options (self m)) = Resolved tr ->
  nullish (body tr) = false ->
  truthy (prop_value (body tr) "access_token") = true ->
  network (S (S (S (requests m))))
          (get_options
             (set_refresh_attempts (refresh_attempts (self m) + 1)
                                   (refreshed_tokens (body tr) (self m)))
             endpoint)
  = Resolved r2 ->
  (statusCode r2 < 400)%Z ->
  JSON_parse_text (ToString (body r2)) = inl parsed2 ->
  nullish parsed2 = false ->
  let run := _get inspect JSON_parse_text network (S (S fuel)) endpoint NoCallback m in
  let token := prop_value (body tr) "access_token" in
  fst run = Ret parsed2
  /\ access_token (self (snd run)) = token
  /\ exists options,
       last (trace (snd run)) = Some (Request options)
       /\ obj_get "url" options = Some (JStr (base (self m) +:+ endpoint))
       /\ obj_get "headers" options
          = Some (JObj [("Client-ID", client_id (self m));
                        ("Authorization",
                         JStr ("Bearer " +:+ ToString token))]).
Proof.
  intros Hnet Hstatus Hparse Hnn Hre Hle Huser Hvnet Hvstatus Hvparse Hvnn
         Hvmsg Htnet Htnn Htoken Hnet2 Hstatus2 Hparse2 Hnn2. cbv zeta.
  rewrite (get_refreshes_once_in_user_mode inspect JSON_parse_text network
             fuel endpoint m r parsed v vparsed tr r2 parsed2
             Hnet Hstatus Hparse Hnn Hre Hle Huser Hvnet Hvstatus Hvparse
             Hvnn Hvmsg Htnet Htnn Hnet2 Hstatus2 Hparse2 Hnn2).
  cbn [fst snd self trace]. split; [reflexivity |].
  assert (access_token (refreshed_tokens (body tr) (self m))
          = prop_value (body tr) "access_token"
          /\ base (refreshed_tokens (body tr) (self m)) = base (self m)
          /\ client_id (refreshed_tokens (body tr) (self m))
             = client_id (self m)) as (Ha & Hb & Hc).
  { unfold refreshed_tokens. rewrite Htoken.
    destruct (truthy (prop_value (body tr) "refresh_token")); repeat split. }
  split; [exact Ha |].
  eexists. split; [apply last_snoc |].
  cbn. rewrite Ha, Hb, Hc. split; reflexivity.
Qed.

(** X11: in app mode a token answer that arrives as an object, which is
    how the request library delivers the JSON answer of a [json: true]
    request, makes the refresh throw: [_getAppAccessToken] hands the object
    to [JSON.parse], whose SyntaxError is wrapped in an Error.  The access
    token is not replaced and no refresh event is emitted. *)
Theorem app_refresh_of_an_object_throws m v vparsed tr o msg :
  refresh_attempts (self m) <= 1 ->
  isApp (self m) = true ->
  network (requests m) (validate_options (self m)) = Resolved v ->
  statusCode v <> 200%Z ->
  JSON_parse_text (ToString (body v)) = inl vparsed ->
  nullish vparsed = false ->
  strict_equals_string (prop_value vparsed "message")
                       "missing authorization token" = false ->
  network (S (requests m)) (app_token_options (self m)) = Resolved tr ->
  body tr = JObj o ->
  JSON_parse_text "[object Object]" = inr msg ->
  _refresh inspect JSON_parse_text network NoCallback m
  = (Throw (Error (exn_to_string (SyntaxError msg))),
     Machine (self m) (heap m) (S (S (requests m)))
             (trace m ++ [Request (validate_options (self m));
                          Request (app_token_options (self m))])).
Proof.
  intros Hle Happ Hvnet Hvstatus Hvparse Hvnn Hvmsg Htnet Hbody Hsyntax.
  unfold _refresh. rewrite bind_this.
  apply Nat.ltb_ge in Hle. rewrite Hle. cbn [when]. rewrite bind_ret. cbv zeta.
  unfold bind at 1.
  rewrite (validate_resolved JSON_parse_text network _ _ _
             Hvnet Hvparse Hvnn Hvmsg).
  apply Z.eqb_neq in Hvstatus. rewrite Hvstatus. cbn [truthy].
  rewrite bind_this. cbn [self]. rewrite Happ.
  unfold _getAppAccessToken.
  unfold bind at 1, catch at 1. rewrite bind_this. cbv zeta. cbn [self].
  rewrite (fetch_resolved_at network _ _ _ _ _ _ _ Htnet).
  rewrite (bind_JSON_parse_fails (body tr) msg)
    by (rewrite Hbody; exact Hsyntax).
  cbn. by rewrite <- app_assoc.
Qed.

(** ** POST *)

(** X12: [_post] parses the body twice, so an answer whose body is a JSON
    object never comes back: whether the object arrives parsed or as text,
    one of the two [JSON.parse] calls is handed an object and throws a
    SyntaxError.  This is so for every status, 200 included; nothing is
    logged or emitted and the callback is not called. *)
Theorem post_object_body_throws endpoint data callback m r o msg :
  network (requests m) (post_options (self m) endpoint data) = Resolved r ->
  JSON_parse_text "[object Object]" = inr msg ->
  body r = JObj o \/ JSON_parse_text (ToString (body r)) = inl (JObj o) ->
  _post inspect JSON_parse_text network endpoint data callback m
  = (Throw (SyntaxError msg),
     Machine (self m) (heap m) (S (requests m))
             (trace m ++ [Request (post_options (self m) endpoint data)])).
Proof.
  intros Hnet Hsyntax Hbody. unfold _post. rewrite bind_this. cbv zeta.
  rewrite (fetch_resolved network _ _ _ _ Hnet).
  destruct Hbody as [Hbody | Hparse].
  - rewrite (bind_JSON_parse_fails (body r) msg)
      by (rewrite Hbody; exact Hsyntax).
    reflexivity.
  - rewrite (bind_JSON_parse JSON_parse_text _ _ _ _ Hparse).
    by rewrite (bind_JSON_parse_fails (JObj o) msg) by exact Hsyntax.
Qed.

End Dispatch.

(** * Further properties of the public methods *)

Section Methods.

Variable inspect : jsval -> string.
Variable JSON_parse_text : string -> jsval + string.
Variable parseOptions : obj -> string.
Variables getLocalClientId getLocalClientSecret : jsval + exn.
Variable setApiUser : config -> option exn.
Variable network : nat -> obj -> outcome.

#[local] Arguments existsb : simpl never.
#[local] Arguments String.eqb : simpl never.
#[local] Arguments String.append : simpl never.

#[local] Hint Resolve gentle_ret gentle_throw gentle_this gentle_log
  gentle_get_prop gentle_get_index gentle_invoke gentle_detach gentle_diverge
  gentle_deref gentle_request gentle_JSON_parse gentle_error
  gentle_isListeningFor gentle_emit gentle_getAppAccessToken gentle_validate
  gentle_streams_channels_query : frame.


Ltac grows := solve [repeat first [reflexivity | apply prefix_app_r]].

(** ** getUsers *)

Lemma users_query_fold id ids (l : list string) acc :
  fold_left
    (fun query x =>
       let type := id_type (JStr x) in
       if (indexOf (id :: ids) x =? 0)%Z
       then query +:+ "?" +:+ type +:+ "=" +:+ x
       else query +:+ "&" +:+ type +:+ "=" +:+ x) l acc
  = acc +:+ fold_right String.append ""
              (map (fun x => (if String.eqb id x then "?" else "&")
                               +:+ id_type (JStr x) +:+ "=" +:+ x) l).
Proof.
  revert acc. induction l as [| x l IH]; intros acc;
    cbn [fold_left map fold_right].
  - by rewrite string_app_empty_r.
  - rewrite indexOf_is_zero. cbv zeta.
    destruct (String.eqb id x); by rewrite IH, string_app_assoc.
Qed.

(** X13: the query of [getUsers] for a list has one parameter per id, in
    the order of the list, each with the label its own id sniffs to; the
    first is behind a question mark, and a later one is behind a question
    mark exactly when its id equals the first id, behind an ampersand
    otherwise.  The ids are written as they are, without URI encoding. *)
Theorem users_query_of_a_list id ids :
  users_query (Many (id :: ids))
  = "?" +:+ id_type (JStr id) +:+ "=" +:+ id
    +:+ fold_right String.append ""
          (map (fun x => (if String.eqb id x then "?" else "&")
                           +:+ id_type (JStr x) +:+ "=" +:+ x) ids).
Proof.
  unfold users_query. cbn [fold_left].
  rewrite indexOf_is_zero, String.eqb_refl. cbv zeta.
  rewrite users_query_fold.
  change ("" +:+ "?" +:+ id_type (JStr id) +:+ "=" +:+ id)
    with ("?" +:+ id_type (JStr id) +:+ "=" +:+ id).
  by rewrite !string_app_assoc.
Qed.

(** X14: when the server answers the GET of [getUsers] with a status below
    400 and a JSON body, the call without a callback returns the parsed body
    as it is, after that one request to [/users] with the query of the ids;
    nothing is validated or refreshed and the instance is unchanged. *)
Theorem getUsers_returns_the_body fuel ids m r parsed :
  network (requests m)
          (get_options (self m) ("/users" +:+ users_query ids)) = Resolved r ->
  (statusCode r < 400)%Z ->
  JSON_parse_text (ToString (body r)) = inl parsed ->
  nullish parsed = false ->
  getUsers inspect JSON_parse_text network (S fuel) ids NoCallback m
  = (Ret parsed,
     Machine (self m) (heap m) (S (requests m))
             (trace m ++ [Request (get_options (self m)
                                     ("/users" +:+ users_query ids))])).
Proof.
  intros Hnet Hstatus Hparse Hnn. unfold getUsers. cbv zeta. cbn [cb_truthy].
  exact (get_succeeds inspect JSON_parse_text network fuel _ m r parsed
           Hnet Hstatus Hparse Hnn).
Qed.

(** ** getStreams *)

Lemma getStreams_unfold fuel l callback m :
  getStreams inspect JSON_parse_text parseOptions network fuel (Some l) callback m
  = (let* query :=
       streams_channels_query
         ("?" +:+ parseOptions (obj_delete "channels" (heap m !!! l)))
         (default JUndefined (obj_get "channels" (heap m !!! l))) in
     let endpoint := "/streams" +:+ query in
     if cb_truthy callback
     then detach (GetTask endpoint callback);; ret JUndefined
     else _get inspect JSON_parse_text network fuel endpoint NoCallback)
      (Machine (self m)
               (<[l := obj_delete "channels" (heap m !!! l)]> (heap m))
               (requests m) (trace m)).
Proof.
  unfold getStreams. rewrite bind_ret. unfold bind at 1, deref at 1.
  cbn [fst snd]. unfold bind at 1, store at 1. cbn [self heap requests trace].
  unfold bind at 1, deref at 1. cbn [heap].
  rewrite lookup_total_insert_eq. reflexivity.
Qed.

Lemma channels_fold (l : list jsval) acc :
  fold_left
    (fun query channel =>
       let type := channel_type channel in
       query +:+ type +:+ "=" +:+ ToString channel +:+ "&") l acc
  = acc +:+ fold_right String.append ""
              (map (fun channel => channel_type channel +:+ "="
                                     +:+ ToString channel +:+ "&") l).
Proof.
  revert acc. induction l as [| x l IH]; intros acc;
    cbn [fold_left map fold_right].
  - by rewrite string_app_empty_r.
  - cbv zeta. by rewrite IH, string_app_assoc.
Qed.

(** X15: for a list of channels [getStreams] issues its GET to [/streams]
    with the encoded options (those left after [channels] is deleted)
    followed by one parameter per channel, in the order of the list, each
    with the label its own value sniffs to and each closed by an ampersand;
    an empty list adds nothing. *)
Theorem getStreams_channels_in_order fuel l m channels :
  obj_get "channels" (heap m !!! l) = Some (JArr channels) ->
  let options := obj_delete "channels" (heap m !!! l) in
  let endpoint :=
    "/streams" +:+ "?" +:+ parseOptions options
      +:+ fold_right String.append ""
            (map (fun channel => channel_type channel +:+ "="
                                   +:+ ToString channel +:+ "&") channels) in
  (trace m ++ [Request (get_options (self m) endpoint)])%list
    `prefix_of`
    trace (snd (getStreams inspect JSON_parse_text parseOptions network (S fuel)
                           (Some l) NoCallback m)).
Proof.
  intros Hchannels. cbv zeta. rewrite getStreams_unfold, Hchannels.
  cbn [default from_option id streams_channels_query truthy]. rewrite bind_ret.
  cbv zeta. cbn [cb_truthy].
  rewrite channels_fold, string_app_assoc.
  match goal with
  | |- context [_get _ _ _ (S fuel) ?e NoCallback ?m1] =>
      exact (get_issues_request inspect JSON_parse_text network fuel e NoCallback m1)
  end.
Qed.

(** X16: a truthy [channels] that is neither a string nor an array (a
    number, [true], a plain object) is not iterable: [getStreams] throws a
    TypeError before any request is issued, and by then [channels] has
    already been deleted from the caller's object. *)
Theorem getStreams_channels_not_iterable fuel l callback m channels :
  obj_get "channels" (heap m !!! l) = Some channels ->
  truthy channels = true ->
  (forall s, channels <> JStr s) ->
  (forall cs, channels <> JArr cs) ->
  getStreams inspect JSON_parse_text parseOptions network fuel (Some l) callback m
  = (Throw (TypeError "channels is not iterable"),
     Machine (self m)
             (<[l := obj_delete "channels" (heap m !!! l)]> (heap m))
             (requests m) (trace m)).
Proof.
  intros Hchannels Htruthy Hstr Harr. rewrite getStreams_unfold, Hchannels.
  cbn [default from_option id]. unfold streams_channels_query. rewrite Htruthy.
  destruct channels as [| | b | n | s | cs | o]; try reflexivity.
  - by destruct (Hstr s).
  - by destruct (Harr cs).
Qed.

(** ** customRequest *)

(** X17: [customRequest] refuses its arguments before it does anything: an
    endpoint that is not a non-empty string, or options that are truthy and
    not an object, make it throw an Error with everything left as it was:
    no request, no log line, no object written. *)
Theorem customRequest_refuses_bad_arguments endpoint options callback m :
  (forall s, endpoint = JStr s -> s = "") \/ options = NotAnObject ->
  exists msg,
    customRequest JSON_parse_text network endpoint options callback m
    = (Throw (Error msg), m).
Proof.
  intros Hbad. unfold customRequest.
  assert (forall msg k,
             bind (@_error string msg) k m
             = (Throw (Error msg), m) :> result jsval * machine) as Herr
      by reflexivity.
  destruct endpoint as [| | b | n | s | cs | o]; try (eexists; apply Herr).
  destruct (String.eqb s "") eqn:Hs; [eexists; apply Herr |].
  destruct Hbad as [Hempty | ->].
  - rewrite (Hempty s eq_refl) in Hs. discriminate.
  - rewrite bind_ret. cbv zeta. rewrite bind_this. eexists. reflexivity.
Qed.

(** X18: with an options object of the caller, [customRequest] writes into
    that very object before the request goes out, and the write stays
    whatever the request comes to (an answer, a transport failure, a body
    that is not JSON): [url], [headers], [resolveWithFullResponse] and
    [simple] are overwritten, every other option of the caller is handed to
    the request library as it is.  One request is issued, with that object,
    and the instance is never changed. *)
Theorem customRequest_writes_the_options endpoint l callback m :
  endpoint <> "" ->
  let path := if starts_with_slash endpoint then endpoint
              else "/" +:+ endpoint in
  let caller := heap m !!! l in
  let injected :=
    [("Client-ID", client_id (self m));
     ("Authorization", JStr ("Bearer " +:+ ToString (access_token (self m))))] in
  let supplied :=
    own_enumerable (default JUndefined (obj_get "headers" caller)) in
  let sent :=
    obj_set "simple" (JBool false)
      (obj_set "resolveWithFullResponse" (JBool true)
         (obj_set "headers" (JObj (obj_assign injected supplied))
            (obj_set "url" (JStr (base (self m) +:+ path)) caller))) in
  let run := customRequest JSON_parse_text network (JStr endpoint) (Object l)
                           callback m in
  heap (snd run) = <[l := sent]> (heap m)
  /\ self (snd run) = self m
  /\ requests (snd run) = S (requests m)
  /\ (trace m ++ [Request sent])%list `prefix_of` trace (snd run)
  /\ obj_get "simple" sent = Some (JBool false)
  /\ obj_get "resolveWithFullResponse" sent = Some (JBool true)
  /\ (forall k, k <> "url" -> k <> "headers" ->
                k <> "resolveWithFullResponse" -> k <> "simple" ->
                obj_get k sent = obj_get k caller).
Proof.
  intros Hendpoint. cbv zeta.
  split; [| split; [| split; [| split; [| split; [| split]]]]].
  5: { apply obj_get_set_eq. }
  5: { rewrite obj_get_set_ne by discriminate. apply obj_get_set_eq. }
  5: { intros k H1 H2 H3 H4. by rewrite !obj_get_set_ne by congruence. }
  all: unfold customRequest;
    apply String.eqb_neq in Hendpoint; rewrite Hendpoint, bind_ret;
    cbv zeta; rewrite bind_this, bind_ret, bind_deref;
    rewrite !(obj_get_set_ne "headers" "url") by discriminate;
    set (sent := obj_set "simple" _ _);
    rewrite bind_store; cbn [self heap requests trace];
    unfold bind, catch, request, JSON_parse, get_prop, when, log, invoke,
      _error, throw, ret;
    cbn [self heap requests trace];
    destruct (network (requests m) sent) as [r | err]; cbn;
    try (destruct (JSON_parse_text (ToString (body r))) as [parsed | msg]; cbn);
    try (destruct (400 <=? statusCode r)%Z; cbn);
    try (destruct (nullish parsed); cbn);
    try (destruct callback; cbn);
    try reflexivity; grows.
Qed.

(** ** The constructor *)

(** X19: what [new TwitchApi(config)] comes to.  Without a [config] it
    throws a TypeError.  A falsy [client_id] or [client_secret] makes it call
    the local lookup, and what the lookup throws is thrown, before the
    options are checked.  With both resolved it throws the Error of the
    conflicting options exactly when [isApp] and [access_token] are both
    truthy.  Otherwise the instance has the mode and the tokens of the
    configuration, the client id and secret as resolved, the helix base URL,
    a refresh counter of 0, no user and no listener (so an instance in app
    mode starts without an access token), and in user mode the constructor
    ends by calling [setApiUser], whose error, if any, it throws. *)
Theorem constructor_outcome config m :
  let run := constructor inspect JSON_parse_text getLocalClientId
                         getLocalClientSecret setApiUser network config m in
  match config with
  | None => exists msg, run = (Throw (TypeError msg), m)
  | Some c =>
      let resolve (given : jsval) (lookup : jsval + exn) :=
        if truthy given then inl given else lookup in
      match resolve (cfg_client_id c) getLocalClientId,
            resolve (cfg_client_secret c) getLocalClientSecret with
      | inr e, _ => run = (Throw e, m)
      | inl _, inr e => run = (Throw e, m)
      | inl id, inl secret =>
          let t := MkTwitchApi (truthy (cfg_isApp c)) (cfg_access_token c)
                               (cfg_refresh_token c) id secret
                               "https://api.twitch.tv/helix" 0 JUndefined [] in
          if truthy (cfg_isApp c) && truthy (cfg_access_token c)
          then fst run = Throw (Error "Option isApp is set to true while an access_token is provided. Choose one method of authentication, do not use both.")
          else self (snd run) = t
               /\ (isApp t = true -> truthy (access_token t) = false)
               /\ fst run = (if isApp t then Ret tt
                             else match setApiUser c with
                                  | Some e => Throw e
                                  | None => Ret tt
                                  end)
      end
  end.
Proof.
  cbv zeta. destruct config as [c |]; [| eexists; reflexivity].
  unfold constructor. rewrite bind_ret. unfold or_else_call.
  destruct (truthy (cfg_client_id c)); [| destruct getLocalClientId as [id | e]];
    rewrite ?bind_ret; [| | reflexivity];
    (destruct (truthy (cfg_client_secret c));
     [| destruct getLocalClientSecret as [secret | e]];
     rewrite ?bind_ret; [| | reflexivity]);
    rewrite bind_update, bind_this; cbn [self isApp access_token];
    (destruct (truthy (cfg_isApp c)) eqn:Happ;
     destruct (truthy (cfg_access_token c)) eqn:Htoken;
     cbn [andb when]; [reflexivity | | |];
     destruct (setApiUser c);
     (split; [reflexivity |]); (split; [cbn; congruence |]); reflexivity).
Qed.

(** ** What the GET methods never change *)


(** ** POST *)

(** X21: [_post] issues exactly one request, the POST itself, whatever it is
    answered and however the call ends; it never changes the instance (no
    token is replaced, the refresh counter is not touched) and writes to no
    object of the caller. *)
Theorem post_issues_one_request endpoint data callback m :
  let run := _post inspect JSON_parse_text network endpoint data callback m in
  self (snd run) = self m
  /\ heap (snd run) = heap m
  /\ requests (snd run) = S (requests m)
  /\ (trace m ++ [Request (post_options (self m) endpoint data)])%list
       `prefix_of` trace (snd run).
Proof.
  cbv zeta. unfold _post. rewrite bind_this. cbv zeta.
  set (sent := post_options (self m) endpoint data).
  unfold bind, catch, request, JSON_parse, get_prop, when, log, invoke, emit,
    call_jsval, call_non_function, this, _error, throw, ret.
  cbn [self heap requests trace].
  destruct (network (requests m) sent) as [r | err]; cbn;
    [| split_and!; first [reflexivity | grows]].
  destruct (JSON_parse_text (ToString (body r))) as [parsed | msg]; cbn;
    [| split_and!; first [reflexivity | grows]].
  destruct (JSON_parse_text (ToString parsed)) as [reparsed | msg]; cbn;
    [| split_and!; first [reflexivity | grows]].
  destruct (nullish reparsed); cbn; [split_and!; first [reflexivity | grows] |].
  destruct (400 <=? statusCode r)%Z; cbn;
    try destruct (existsb (String.eqb "error") (listeners (self m))); cbn;
    try destruct (String.eqb "error" "error"); cbn;
    try destruct (statusCode r =? 401)%Z; cbn;
    try destruct callback; cbn;
    split_and!; first [reflexivity | grows].
Qed.

(** X22: unlike [_get], [_post] emits the error event without asking whether
    anyone listens.  So a POST answered with a status of 400 or more on an
    instance without an error listener throws out of [emit]: what is thrown
    is the Error in which [EventEmitter] wraps the payload (the object with
    [type], [code], [statusMessage] and [message]), its message being
    [Unhandled error. (...)] around the payload as [util.inspect] prints
    it.  The failure has been written to the console by then; the callback
    is not called and no body is returned. *)
Theorem post_failure_without_listener_throws
        endpoint data callback m r parsed reparsed :
  network (requests m) (post_options (self m) endpoint data) = Resolved r ->
  JSON_parse_text (ToString (body r)) = inl parsed ->
  JSON_parse_text (ToString parsed) = inl reparsed ->
  nullish reparsed = false ->
  (400 <= statusCode r)%Z ->
  existsb (String.eqb "error") (listeners (self m)) = false ->
  _post inspect JSON_parse_text network endpoint data callback m
  = (Throw (Error ("Unhandled error. ("
                     +:+ inspect (http_error_object
                                    r (prop_value reparsed "message"))
                     +:+ ")")),
     Machine (self m) (heap m) (S (requests m))
             (trace m
                ++ [Request (post_options (self m) endpoint data);
                    ConsoleError
                      (http_error_text "Post" (base (self m) +:+ endpoint) r
                                       (prop_value reparsed "message"))])).
Proof.
  intros Hnet Hparse Hreparse Hnn Hstatus Hdeaf.
  unfold _post. rewrite bind_this. cbv zeta.
  rewrite (fetch_resolved network _ _ _ _ Hnet),
    (bind_JSON_parse JSON_parse_text _ _ _ _ Hparse),
    (bind_JSON_parse JSON_parse_text _ _ _ _ Hreparse),
    (bind_get_prop _ _ _ _ Hnn).
  apply Z.leb_le in Hstatus. rewrite Hstatus. cbn [when].
  rewrite !bind_assoc, bind_log. cbv beta.
  unfold emit. rewrite !bind_assoc, bind_this. cbn [self].
  rewrite Hdeaf. cbn. by rewrite <- app_assoc.
Qed.

End Methods.

(** ** The further properties at concrete inputs *)

Ltac at_sample :=
  first [ reflexivity | discriminate | (intros; reflexivity)
        | (vm_compute; lia) | (vm_compute; discriminate)
        | (vm_compute; congruence) ].

Lemma get_hands_over_the_body_witness :
  _get sample_inspect sample_JSON_parse (script [ok]) 1 "/users" (Function "done")
       (sample_machine false 0)
  = (Ret JUndefined,
     Machine (sample_instance false 0) ∅ 1
             [Request (get_options (sample_instance false 0) "/users");
              Invoke "done" [ArgValue (JObj []);
                             ArgResponse (Response 200 "OK" (JStr "{}"))]]).
Proof.
  apply (get_hands_over_the_body sample_inspect sample_JSON_parse (script [ok]) 0 "/users"
           (Function "done") (sample_machine false 0)
           (Response 200 "OK" (JStr "{}")) (JObj [])); at_sample.
Defined.

Lemma get_token_pattern_is_fatal_witness :
  _get sample_inspect fatal_JSON_parse (script [scope_required; ok; ok]) 3 "/users"
       NoCallback listening_machine
  = (Throw (Error "Valid OAuth token with scope required"),
     Machine (self listening_machine) ∅ 1
             [Request (get_options (self listening_machine) "/users")]).
Proof.
  apply (get_token_pattern_is_fatal sample_inspect fatal_JSON_parse
           (script [scope_required; ok; ok]) 2 "/users" NoCallback
           listening_machine
           (Response 401 "Unauthorized"
                     (JStr (json_field "message"
                                       "Valid OAuth token with scope required")))
           (JObj [("message", JStr "Valid OAuth token with scope required")]));
    at_sample.
Defined.

Lemma get_transport_failure_is_thrown_witness :
  _get sample_inspect sample_JSON_parse (script []) 2 "/users" NoCallback
       (sample_machine true 0)
  = (Throw (Error "RequestError: no route to host"),
     Machine (sample_instance true 0) ∅ 1
             [Request (get_options (sample_instance true 0) "/users")]).
Proof.
  apply (get_transport_failure_is_thrown sample_inspect sample_JSON_parse (script []) 1
           "/users" NoCallback (sample_machine true 0)
           (Exn "RequestError" "no route to host")); at_sample.
Defined.

Lemma get_unreadable_body_throws_witness :
  _get sample_inspect sample_JSON_parse
       (script [Resolved (Response 200 "OK" (JStr "<html></html>"))]) 2
       "/users" NoCallback (sample_machine false 0)
  = (Throw (SyntaxError "Unexpected token"),
     Machine (sample_instance false 0) ∅ 1
             [Request (get_options (sample_instance false 0) "/users")]).
Proof.
  exact (get_unreadable_body_throws sample_inspect sample_JSON_parse
           (script [Resolved (Response 200 "OK" (JStr "<html></html>"))]) 1
           "/users" NoCallback (sample_machine false 0)
           (Response 200 "OK" (JStr "<html></html>")) eq_refl).
Defined.

Lemma validate_is_valid_only_on_200_witness :
  exists valid,
    _validate sample_JSON_parse (script [not_found]) NoCallback
              (sample_machine false 0)
    = (Ret (JBool valid),
       Machine (sample_instance false 0) ∅ 1
               [Request (validate_options (sample_instance false 0))])
    /\ (valid = true <-> 404%Z = 200%Z).
Proof.
  apply (validate_is_valid_only_on_200 sample_JSON_parse (script [not_found])
           (sample_machine false 0)
           (Response 404 "Not Found" (JStr (json_field "message" "not found")))
           (JObj [("message", JStr "not found")])); at_sample.
Defined.

Lemma validate_missing_token_is_fatal_witness :
  let after := Machine (sample_instance false 0) ∅ 1
                       [Request (validate_options (sample_instance false 0))] in
  _validate fatal_JSON_parse (script [missing_token; token_text]) NoCallback
            (sample_machine false 0)
  = (Throw (Error "missing authorization token"), after)
  /\ _refresh sample_inspect fatal_JSON_parse (script [missing_token; token_text]) NoCallback
              (sample_machine false 0)
     = (Throw (Error "missing authorization token"), after).
Proof.
  apply (validate_missing_token_is_fatal sample_inspect fatal_JSON_parse
           (script [missing_token; token_text]) NoCallback
           (sample_machine false 0)
           (Response 401 "Unauthorized"
                     (JStr (json_field "message" "missing authorization token")))
           (JObj [("message", JStr "missing authorization token")]));
    at_sample.
Defined.



Lemma refresh_overwrites_only_what_it_gets_witness :
  let run := _refresh sample_inspect sample_JSON_parse (script [unauthorized; token_refused])
                      NoCallback (sample_machine false 0) in
  fst run = Ret tt
  /\ access_token (self (snd run)) = JStr "stale"
  /\ refresh_token (self (snd run)) = JStr "r0"
  /\ refresh_attempts (self (snd run)) = 1
  /\ requests (snd run) = 2.
Proof.
  apply (refresh_overwrites_only_what_it_gets sample_inspect sample_JSON_parse
           (script [unauthorized; token_refused]) (sample_machine false 0)
           (Response 401 "Unauthorized"
                     (JStr (json_field "message" "invalid access token")))
           (JObj [("message", JStr "invalid access token")])
           (Response 400 "Bad Request"
                     (JObj [("status", JNum "400");
                            ("message", JStr "Invalid refresh token")])));
    at_sample.
Defined.

Lemma get_retries_with_the_new_token_witness :
  let run := _get sample_inspect sample_JSON_parse
                  (script [unauthorized; unauthorized; token_object; ok]) 2
                  "/users" NoCallback (sample_machine false 0) in
  fst run = Ret (JObj [])
  /\ access_token (self (snd run)) = JStr "fresh"
  /\ exists options,
       last (trace (snd run)) = Some (Request options)
       /\ obj_get "url" options = Some (JStr users_url)
       /\ obj_get "headers" options
          = Some (JObj [("Client-ID", JStr "cid");
                        ("Authorization", JStr "Bearer fresh")]).
Proof.
  apply (get_retries_with_the_new_token sample_inspect sample_JSON_parse
           (script [unauthorized; unauthorized; token_object; ok]) 0 "/users"
           (sample_machine false 0)
           (Response 401 "Unauthorized"
                     (JStr (json_field "message" "invalid access token")))
           (JObj [("message", JStr "invalid access token")])
           (Response 401 "Unauthorized"
                     (JStr (json_field "message" "invalid access token")))
           (JObj [("message", JStr "invalid access token")])
           (Response 200 "OK" (JObj [("access_token", JStr "fresh")]))
           (Response 200 "OK" (JStr "{}")) (JObj [])); at_sample.
Defined.

Lemma app_refresh_of_an_object_throws_witness :
  _refresh sample_inspect sample_JSON_parse (script [unauthorized; token_object]) NoCallback
           (sample_machine true 0)
  = (Throw (Error "SyntaxError: Unexpected token"),
     Machine (sample_instance true 0) ∅ 2
             [Request (validate_options (sample_instance true 0));
              Request (app_token_options (sample_instance true 0))]).
Proof.
  apply (app_refresh_of_an_object_throws sample_inspect sample_JSON_parse
           (script [unauthorized; token_object]) (sample_machine true 0)
           (Response 401 "Unauthorized"
                     (JStr (json_field "message" "invalid access token")))
           (JObj [("message", JStr "invalid access token")])
           (Response 200 "OK" (JObj [("access_token", JStr "fresh")]))
           [("access_token", JStr "fresh")] "Unexpected token"); at_sample.
Defined.

Lemma post_object_body_throws_witness :
  _post sample_inspect sample_JSON_parse
        (script [Resolved (Response 200 "OK" (JObj [("id", JStr "1")]))])
        "/clips" (JObj [("title", JStr "clip")]) (Function "done")
        (sample_machine false 0)
  = (Throw (SyntaxError "Unexpected token"),
     Machine (sample_instance false 0) ∅ 1
             [Request (post_options (sample_instance false 0) "/clips"
                                    (JObj [("title", JStr "clip")]))]).
Proof.
  apply (post_object_body_throws sample_inspect sample_JSON_parse
           (script [Resolved (Response 200 "OK" (JObj [("id", JStr "1")]))])
           "/clips" (JObj [("title", JStr "clip")]) (Function "done")
           (sample_machine false 0)
           (Response 200 "OK" (JObj [("id", JStr "1")]))
           [("id", JStr "1")] "Unexpected token");
    [reflexivity | reflexivity | left; reflexivity].
Defined.

Lemma getUsers_returns_the_body_witness :
  getUsers sample_inspect sample_JSON_parse (script [ok]) 1 (Single "ninja") NoCallback
           (sample_machine false 0)
  = (Ret (JObj []),
     Machine (sample_instance false 0) ∅ 1
             [Request (get_options (sample_instance false 0)
                                   "/users?login=ninja")]).
Proof.
  apply (getUsers_returns_the_body sample_inspect sample_JSON_parse (script [ok]) 0
           (Single "ninja") (sample_machine false 0)
           (Response 200 "OK" (JStr "{}")) (JObj [])); at_sample.
Defined.

Lemma getStreams_channels_in_order_witness :
  [Request (get_options (sample_instance false 0)
              "/streams?first=5&user_login=ninja&user_id=44322889&")]
    `prefix_of`
    trace (snd (getStreams sample_inspect sample_JSON_parse sample_parseOptions (script [ok])
                           1 (Some 7) NoCallback
                           (channels_machine
                              (JArr [JStr "ninja"; JStr "44322889"])))).
Proof.
  apply (getStreams_channels_in_order sample_inspect sample_JSON_parse sample_parseOptions
           (script [ok]) 0 7
           (channels_machine (JArr [JStr "ninja"; JStr "44322889"]))
           [JStr "ninja"; JStr "44322889"]); at_sample.
Defined.

Lemma getStreams_channels_not_iterable_witness :
  getStreams sample_inspect sample_JSON_parse sample_parseOptions (script [ok]) 1 (Some 7)
             NoCallback (channels_machine (JNum "44322889"))
  = (Throw (TypeError "channels is not iterable"),
     Machine (sample_instance false 0) {[ 7 := [("first", JNum "5")] ]} 0 []).
Proof.
  apply (getStreams_channels_not_iterable sample_inspect sample_JSON_parse sample_parseOptions
           (script [ok]) 1 7 NoCallback (channels_machine (JNum "44322889"))
           (JNum "44322889")); at_sample.
Defined.

Lemma customRequest_refuses_bad_arguments_witness :
  (exists msg,
      customRequest sample_JSON_parse (script [ok]) (JStr "") Absent
                    NoCallback (sample_machine false 0)
      = (Throw (Error msg), sample_machine false 0))
  /\ (exists msg,
         customRequest sample_JSON_parse (script [ok]) (JStr "/games")
                       NotAnObject NoCallback (sample_machine false 0)
         = (Throw (Error msg), sample_machine false 0)).
Proof.
  split.
  - apply (customRequest_refuses_bad_arguments sample_JSON_parse (script [ok])
             (JStr "") Absent NoCallback (sample_machine false 0)).
    left. intros s Hs. injection Hs as <-. reflexivity.
  - apply (customRequest_refuses_bad_arguments sample_JSON_parse (script [ok])
             (JStr "/games") NotAnObject NoCallback (sample_machine false 0)).
    right. reflexivity.
Defined.

Lemma customRequest_writes_the_options_witness :
  let run := customRequest sample_JSON_parse (script []) (JStr "games")
                           (Object 3) NoCallback request_options_machine in
  fst run = Throw (Error "RequestError: no route to host")
  /\ heap (snd run) !!! 3
     = [("url", JStr "https://api.twitch.tv/helix/games");
        ("timeout", JNum "1000");
        ("headers", JObj [("Client-ID", JStr "cid");
                          ("Authorization", JStr "Bearer stale")]);
        ("resolveWithFullResponse", JBool true);
        ("simple", JBool false)].
Proof.
  cbv zeta.
  destruct (customRequest_writes_the_options sample_JSON_parse (script [])
              "games" 3 NoCallback request_options_machine)
    as (Hheap & _); [discriminate |].
  split; [reflexivity |]. rewrite Hheap. reflexivity.
Defined.

Lemma post_failure_without_listener_throws_witness :
  _post sample_inspect sample_JSON_parse
        (script [Resolved (Response 500 "" (JNum "5"))])
        "/clips" JNull (Function "done") (sample_machine false 0)
  = (Throw (Error "Unhandled error. ({ type: 'http', code: 500, statusMessage: '', message: undefined })"),
     Machine (sample_instance false 0) ∅ 1
             [Request (post_options (sample_instance false 0) "/clips" JNull);
              ConsoleError
                (http_error_text "Post" "https://api.twitch.tv/helix/clips"
                   (Response 500 "" (JNum "5")) JUndefined)]).
Proof.
  apply (post_failure_without_listener_throws sample_inspect sample_JSON_parse
           (script [Resolved (Response 500 "" (JNum "5"))])
           "/clips" JNull (Function "done") (sample_machine false 0)
           (Response 500 "" (JNum "5")) (JNum "5") (JNum "5")); at_sample.
Defined.

(** * The labels of ids and channels, and the custom request *)

Section Passthrough.

Variable inspect : jsval -> string.
Variable JSON_parse_text : string -> jsval + string.
Variable parseOptions : obj -> string.
Variable network : nat -> obj -> outcome.

#[local] Arguments existsb : simpl never.
#[local] Arguments String.eqb : simpl never.
#[local] Arguments String.append : simpl never.


(** ** customRequest *)

(** C7, amended: for a non-empty endpoint and options that are absent or an
    object, [customRequest] issues one request and no other, whatever
    becomes of it, and never changes the instance (no refresh, no retry).
    The request goes to the base URL followed by the endpoint, with a slash
    put in front when the endpoint has none, and carries the [Client-ID]
    and bearer [Authorization] headers merged with the caller's headers, a
    header of the caller replacing the injected one of the same name.  When
    the body of the answer is JSON text (and not [null] if the status is
    400 or more), the parsed body is returned, or handed to the callback,
    a status of 400 or more adding one line to the console log and nothing
    else.  A body that [JSON.parse] refuses throws its SyntaxError instead,
    a [null] body at a status of 400 or more throws a TypeError, and a
    request that fails throws an Error; nothing is logged then. *)
Theorem customRequest_passthrough endpoint options callback m :
  endpoint <> "" ->
  options <> NotAnObject ->
  callback <> NotCallable ->
  let path := if starts_with_slash endpoint then endpoint
              else "/" +:+ endpoint in
  let l := match options with
           | Object l => l
           | _ => fresh (dom (heap m))
           end in
  let caller := match options with
                | Object l => heap m !!! l
                | _ => []
                end in
  let injected :=
    [("Client-ID", client_id (self m));
     ("Authorization", JStr ("Bearer " +:+ ToString (access_token (self m))))] in
  let given := default JUndefined (obj_get "headers" caller) in
  let url := base (self m) +:+ path in
  let sent :=
    obj_set "simple" (JBool false)
      (obj_set "resolveWithFullResponse" (JBool true)
         (obj_set "headers" (JObj (obj_assign injected (own_enumerable given)))
            (obj_set "url" (JStr url) caller))) in
  let after extra :=
    Machine (self m) (<[l := sent]> (heap m)) (S (requests m))
            (trace m ++ [Request sent] ++ extra) in
  let run := customRequest JSON_parse_text network (JStr endpoint) options
                           callback m in
  match network (requests m) sent with
  | Rejected err => run = (Throw (Error (exn_to_string err)), after [])
  | Resolved r =>
      match JSON_parse_text (ToString (body r)) with
      | inr msg => run = (Throw (SyntaxError msg), after [])
      | inl parsed =>
          if (400 <=? statusCode r)%Z && nullish parsed
          then snd run = after []
               /\ exists msg, fst run = Throw (TypeError msg)
          else run
               = (match callback with
                  | NoCallback => Ret parsed
                  | _ => Ret JUndefined
                  end,
                  after
                    ((if (400 <=? statusCode r)%Z
                      then [ConsoleLog
                              ("Custom request to " +:+ url +:+ " failed:"
                                 +:+ nl +:+ pretty (statusCode r) +:+ " "
                                 +:+ statusMessage r +:+ ": "
                                 +:+ ToString (prop_value parsed "message")
                                 +:+ nl)]
                      else [])
                       ++ match callback with
                          | Function f =>
                              [Invoke f [ArgValue parsed; ArgResponse r]]
                          | _ => []
                          end)%list)
      end
  end
  /\ self (snd run) = self m
  /\ requests (snd run) = S (requests m)
  /\ starts_with_slash path = true
  /\ obj_get "url" sent = Some (JStr url)
  /\ exists headers,
       obj_get "headers" sent = Some (JObj headers)
       /\ (given = JUndefined -> headers = injected)
       /\ (forall theirs, given = JObj theirs -> NoDup theirs.*1 ->
           forall k, obj_get k headers
                     = match obj_get k theirs with
                       | Some v => Some v
                       | None => obj_get k injected
                       end).
Proof.
  intros Hendpoint Hoptions Hcallback. cbv zeta.
  set (path := if starts_with_slash endpoint then endpoint
               else "/" +:+ endpoint).
  set (caller := match options with Object l => heap m !!! l | _ => [] end).
  set (injected := [("Client-ID", client_id (self m)); _]).
  set (sent := obj_set "simple" _ _).
  assert (default JUndefined (obj_get "url" sent)
          = JStr (base (self m) +:+ path)) as Hurl.
  { unfold sent. rewrite !obj_get_set_ne by discriminate.
    by rewrite obj_get_set_eq. }
  assert (customRequest JSON_parse_text network (JStr endpoint) options
                        callback m
          = (let* response := catch (request network sent)
                                    (fun err => _error (exn_to_string err)) in
             let* body := JSON_parse JSON_parse_text (body response) in
             when (400 <=? statusCode response)%Z
                  (let* message := get_prop body "message" in
                   log (ConsoleLog
                          ("Custom request to "
                             +:+ ToString (default JUndefined
                                                   (obj_get "url" sent))
                             +:+ " failed:" +:+ nl
                             +:+ pretty (statusCode response) +:+ " "
                             +:+ statusMessage response +:+ ": "
                             +:+ ToString message +:+ nl)));;
             if cb_truthy callback
             then invoke callback [ArgValue body; ArgResponse response];;
                  ret JUndefined
             else ret body)
              (Machine (self m)
                       (<[match options with
                          | Object l => l
                          | _ => fresh (dom (heap m))
                          end := sent]> (heap m))
                       (requests m) (trace m))) as Hrun.
  { unfold customRequest.
    apply String.eqb_neq in Hendpoint. rewrite Hendpoint, bind_ret.
    cbv zeta. rewrite bind_this. fold path.
    destruct options as [| | l0]; [| congruence |].
    - rewrite bind_alloc, bind_deref. cbn [self heap requests trace].
      rewrite lookup_total_insert_eq.
      rewrite !(obj_get_set_ne "headers" "url") by discriminate.
      fold injected. fold sent.
      rewrite bind_store. cbn [self heap requests trace].
      by rewrite insert_insert_eq.
    - rewrite bind_ret, bind_deref.
      rewrite !(obj_get_set_ne "headers" "url") by discriminate.
      fold caller. fold injected. fold sent.
      by rewrite bind_store. }
  rewrite Hrun, Hurl. cbn [ToString]. clear Hrun.
  split_and!.
  - destruct (network (requests m) sent) as [r | err] eqn:Hnet.
    + rewrite (fetch_resolved_at network _ _ _ _ _ _ _ Hnet).
      destruct (JSON_parse_text (ToString (body r))) as [parsed | msg]
        eqn:Hparse.
      * rewrite (bind_JSON_parse JSON_parse_text _ _ _ _ Hparse).
        destruct (400 <=? statusCode r)%Z; cbn [andb when].
        -- destruct (nullish parsed) eqn:Hnn.
           ++ rewrite !bind_assoc, (bind_get_prop_nullish _ _ _ _ Hnn).
              split; [reflexivity | eexists; reflexivity].
           ++ rewrite !bind_assoc, (bind_get_prop _ _ _ _ Hnn), bind_log.
              destruct callback; try congruence; cbn;
                rewrite <- ?app_assoc; reflexivity.
        -- rewrite bind_ret.
           destruct callback; try congruence; cbn;
             rewrite <- ?app_assoc, ?app_nil_r; reflexivity.
      * rewrite (bind_JSON_parse_fails JSON_parse_text _ _ _ _ Hparse).
        reflexivity.
    + unfold bind at 1, catch at 1, request. cbn [requests]. rewrite Hnet.
      reflexivity.
  - unfold bind, catch, request, JSON_parse, get_prop, when, log, invoke,
      call_non_function, _error, throw, ret.
    cbn [self heap requests trace].
    destruct (network (requests m) sent) as [r | err]; cbn; [| reflexivity].
    destruct (JSON_parse_text (ToString (body r))) as [parsed | msg]; cbn;
      [| reflexivity].
    destruct (400 <=? statusCode r)%Z; cbn;
      try (destruct (nullish parsed); cbn); destruct callback; reflexivity.
  - unfold bind, catch, request, JSON_parse, get_prop, when, log, invoke,
      call_non_function, _error, throw, ret.
    cbn [self heap requests trace].
    destruct (network (requests m) sent) as [r | err]; cbn; [| reflexivity].
    destruct (JSON_parse_text (ToString (body r))) as [parsed | msg]; cbn;
      [| reflexivity].
    destruct (400 <=? statusCode r)%Z; cbn;
      try (destruct (nullish parsed); cbn); destruct callback; reflexivity.
  - unfold path. destruct endpoint as [| c s]; [congruence |]. cbn.
    destruct (Ascii.eqb c "/") eqn:E; cbn; trivial.
  - unfold sent. rewrite !obj_get_set_ne by discriminate.
    apply obj_get_set_eq.
  - eexists. split; [| split].
    + unfold sent. rewrite !obj_get_set_ne by discriminate.
      apply obj_get_set_eq.
    + intros ->. reflexivity.
    + intros theirs -> Hnodup k. cbn [own_enumerable].
      destruct (obj_get k theirs) as [v |] eqn:Hk.
      * by apply obj_get_assign_present.
      * by apply obj_get_assign_absent.
Qed.

End Passthrough.

(** * Calls in flight and calls made one after another *)

Section Alone.

Variable inspect : jsval -> string.
Variable JSON_parse_text : string -> jsval + string.
Variable network : nat -> obj -> outcome.

#[local] Arguments existsb : simpl never.
#[local] Arguments String.eqb : simpl never.
#[local] Arguments String.append : simpl never.

(** *** A call run alone is the call of the sequential embedding *)

Lemma run_alone_sync {A} (c : M A) m : run_alone network (sync c) m = c m.
Proof. unfold sync. cbn. by destruct (c m) as [[a | e |] m']. Qed.

Lemma run_alone_bind {A B} (c : async A) (f : A -> async B)
      (c' : M A) (f' : A -> M B) :
  (forall m, run_alone network c m = c' m) ->
  (forall a m, run_alone network (f a) m = f' a m) ->
  forall m, run_alone network (abind c f) m = bind c' f' m.
Proof.
  intros Hc Hf m. unfold bind. rewrite <- Hc. clear Hc c'. revert m.
  induction c as [a | e | X c k IHk h IHh | options k IHk]; intros m; cbn.
  - apply Hf.
  - reflexivity.
  - destruct (c m) as [[b | e |] m']; [apply IHk | apply IHh | reflexivity].
  - apply IHk.
Qed.

Lemma run_alone_catch {A} (c : async A) (handler : exn -> async A)
      (c' : M A) (handler' : exn -> M A) :
  (forall m, run_alone network c m = c' m) ->
  (forall e m, run_alone network (handler e) m = handler' e m) ->
  forall m, run_alone network (acatch c handler) m = catch c' handler' m.
Proof.
  intros Hc Hh m. unfold catch. rewrite <- Hc. clear Hc c'. revert m.
  induction c as [a | e | X c k IHk h IHh | options k IHk]; intros m; cbn.
  - reflexivity.
  - apply Hh.
  - destruct (c m) as [[b | e |] m']; [apply IHk | apply IHh | reflexivity].
  - apply IHk.
Qed.

Lemma run_alone_request options m :
  run_alone network (await_request options) m = request network options m.
Proof. unfold request. cbn. by destruct (network (requests m) options). Qed.

Lemma run_alone_fetch options m :
  run_alone network
            (acatch (await_request options)
                    (fun err => sync (_error (exn_to_string err)))) m
  = catch (request network options) (fun err => _error (exn_to_string err)) m.
Proof.
  apply run_alone_catch; [apply run_alone_request |].
  intros e m'. apply run_alone_sync.
Qed.

Ltac alone :=
  cbv zeta;
  lazymatch goal with
  | |- forall m, run_alone _ (abind _ _) m = _ =>
      apply run_alone_bind; [| intros ?]
  | |- forall m, run_alone _ (acatch (await_request _) _) m = _ =>
      apply run_alone_fetch
  | |- forall m, run_alone _ (acatch _ _) m = _ =>
      apply run_alone_catch; [| intros ?]
  | |- forall m, run_alone _ (sync _) m = _ => apply run_alone_sync
  | |- forall m, run_alone _ (Return _) m = _ => reflexivity
  | |- forall m, run_alone _ (if ?b then _ else _) m = _ => destruct b
  end.

Lemma validate_alone callback m :
  run_alone network (_validate_async JSON_parse_text callback) m
  = _validate JSON_parse_text network callback m.
Proof. revert m. unfold _validate_async, _validate. repeat alone. Qed.

Lemma getAppAccessToken_alone callback m :
  run_alone network (_getAppAccessToken_async JSON_parse_text callback) m
  = _getAppAccessToken JSON_parse_text network callback m.
Proof.
  revert m. unfold _getAppAccessToken_async, _getAppAccessToken.
  repeat alone.
Qed.

Lemma refresh_alone callback m :
  run_alone network (_refresh_async inspect JSON_parse_text callback) m
  = _refresh inspect JSON_parse_text network callback m.
Proof.
  revert m. unfold _refresh_async, _refresh.
  repeat first [ alone
               | apply validate_alone
               | apply getAppAccessToken_alone ].
Qed.

Lemma get_alone fuel endpoint callback m :
  run_alone network (_get_async inspect JSON_parse_text fuel endpoint callback) m
  = _get inspect JSON_parse_text network fuel endpoint callback m.
Proof.
  revert m. induction fuel as [| fuel IH]; cbn [_get_async _get].
  - apply run_alone_sync.
  - repeat first [ alone | apply refresh_alone | apply IH ].
Qed.

(** A call that is resumed as soon as it waits is the call run alone. *)
Lemma advance_alone {A} (c : async A) m :
  run_alone network c m
  = match advance network c m with
    | (Settled r, m') => (r, m')
    | (Waiting answer k, m') => run_alone network (k answer) m'
    end.
Proof.
  revert m. induction c as [a | e | X c k IHk h IHh | options k IHk];
    intros m; cbn; trivial.
  destruct (c m) as [[b | e |] m']; [apply IHk | apply IHh | reflexivity].
Qed.

End Alone.

(** ** The counter over the life of an instance *)

Section Counted.

Variable inspect : jsval -> string.
Variable JSON_parse_text : string -> jsval + string.
Variable parseOptions : obj -> string.
Variable network : nat -> obj -> outcome.

#[local] Arguments existsb : simpl never.
#[local] Arguments String.eqb : simpl never.
#[local] Arguments String.append : simpl never.

#[local] Hint Resolve gentle_ret gentle_throw gentle_this gentle_log
  gentle_get_prop gentle_get_index gentle_invoke gentle_detach gentle_diverge
  gentle_deref gentle_request gentle_JSON_parse gentle_error
  gentle_isListeningFor gentle_emit gentle_getAppAccessToken gentle_validate
  : frame.












End Counted.

(** ** A GET that is issued again and again *)

Section Retried.

Variable inspect : jsval -> string.
Variable JSON_parse_text : string -> jsval + string.
Variable network : nat -> obj -> outcome.

#[local] Arguments existsb : simpl never.
#[local] Arguments String.eqb : simpl never.
#[local] Arguments String.append : simpl never.

(** From the request numbered [first] on, the GET keeps failing and the
    validator keeps finding the token valid: the GET is issued again and
    again. *)
Lemma get_spins endpoint callback r parsed v vparsed first :
  (forall n t, first <= n -> network n (get_options t endpoint) = Resolved r) ->
  (400 <= statusCode r)%Z ->
  JSON_parse_text (ToString (body r)) = inl parsed ->
  nullish parsed = false ->
  regexp_test (prop_value parsed "message") = false ->
  (forall n t, first <= n -> network n (validate_options t) = Resolved v) ->
  statusCode v = 200%Z ->
  JSON_parse_text (ToString (body v)) = inl vparsed ->
  nullish vparsed = false ->
  strict_equals_string (prop_value vparsed "message")
                       "missing authorization token" = false ->
  forall fuel m,
    first <= requests m ->
    refresh_attempts (self m) <= 1 ->
    let run := _get inspect JSON_parse_text network fuel endpoint callback m in
    fst run = Diverge
    /\ self (snd run) = self m
    /\ requests (snd run) = requests m + 2 * fuel.
Proof.
  intros Hnet Hstatus Hparse Hnn Hre Hvnet Hvstatus Hvparse Hvnn Hvmsg.
  induction fuel as [| fuel IH]; intros m Hfirst Hle; cbv zeta.
  - cbn. repeat split. lia.
  - assert (_get inspect JSON_parse_text network (S fuel) endpoint callback m
            = _get inspect JSON_parse_text network fuel endpoint callback
                   (Machine (self m) (heap m) (S (S (requests m)))
                            ((trace m
                                ++ get_failure_events (self m) endpoint r
                                     (prop_value parsed "message"))
                               ++ [Request (validate_options (self m))])))
      as ->.
    { rewrite (get_failing_round inspect JSON_parse_text network _ _ _ _ _ _
                 (Hnet _ _ Hfirst) Hstatus Hparse Hnn Hre).
      unfold bind at 1.
      match goal with
      | |- context [_refresh _ _ _ NoCallback ?m1] =>
          by rewrite (refresh_valid inspect JSON_parse_text network NoCallback
                        m1 v vparsed Hle
                        (Hvnet (S (requests m)) _ ltac:(lia)) Hvstatus Hvparse
                        Hvnn Hvmsg)
      end. }
    match goal with
    | |- context [_get _ _ _ fuel endpoint callback ?m2] =>
        destruct (IH m2 ltac:(cbn; lia) Hle) as (Hd & Hs & Hr)
    end.
    rewrite Hd, Hs, Hr. cbn [self requests]. repeat split. lia.
Qed.

End Retried.

(** ** One refresh and one retry *)

(** C1 (where the code departs from the description), at two inputs whose
    token the validator finds invalid once.  In app mode, with the token
    answer as the request library hands it over for a request made with
    [json: true], an object, the refresh throws in [_getAppAccessToken]:
    the token is not replaced and the GET is not issued again.  In user
    mode, with a GET that keeps failing, the one refresh is followed by one
    GET after another, each after a validation that finds the new token
    valid: the dispatch never settles, and with a fuel of four the log
    already shows four GETs. *)
Theorem one_invalid_token_is_not_one_retry :
  (let run := _get sample_inspect sample_JSON_parse
                   (script [unauthorized; unauthorized; token_object; ok])
                   4 "/users" NoCallback (constructed true) in
   fst run = Throw (Error "SyntaxError: Unexpected token")
   /\ access_token (self (snd run)) = access_token (self (constructed true))
   /\ omap request_url (trace (snd run)) = [users_url; validate_url; token_url])
  /\ (forall fuel,
         let run := _get sample_inspect sample_JSON_parse invalid_once (S fuel)
                         "/users" NoCallback (sample_machine false 0) in
         fst run = Diverge
         /\ refresh_attempts (self (snd run)) = 1
         /\ access_token (self (snd run)) = JStr "fresh"
         /\ requests (snd run) = 3 + 2 * fuel)
  /\ (let run := _get sample_inspect sample_JSON_parse invalid_once 4
                      "/users" NoCallback (sample_machine false 0) in
      omap request_url (trace (snd run))
      = [users_url; validate_url; token_url; users_url; validate_url;
         users_url; validate_url; users_url; validate_url]).
Proof.
  split; [vm_compute; repeat split |]. split; [| vm_compute; reflexivity].
  intros fuel. cbv zeta.
  destruct (get_round_in_user_mode sample_inspect sample_JSON_parse invalid_once
              fuel "/users" NoCallback (sample_machine false 0)
              (Response 401 "Unauthorized"
                        (JStr (json_field "message" "invalid access token")))
              (JObj [("message", JStr "invalid access token")])
              (Response 401 "Unauthorized"
                        (JStr (json_field "message" "invalid access token")))
              (JObj [("message", JStr "invalid access token")])
              (Response 200 "OK" (JObj [("access_token", JStr "fresh")])))
    as [events ->]; try reflexivity; try (vm_compute; lia);
    try (vm_compute; congruence).
  match goal with
  | |- context [_get _ _ _ fuel "/users" NoCallback ?m1] =>
      destruct (get_spins sample_inspect sample_JSON_parse invalid_once
                  "/users" NoCallback
                  (Response 401 "Unauthorized"
                            (JStr (json_field "message" "invalid access token")))
                  (JObj [("message", JStr "invalid access token")])
                  (Response 200 "OK" (JStr "{}")) (JObj []) 3)
        with (fuel := fuel) (m := m1) as (Hd & Hs & Hr)
  end; try reflexivity; try (vm_compute; lia); try (cbn; lia).
  - intros n t Hn. unfold invalid_once. cbn [validate_options obj_get].
    change (obj_get "method" (validate_options t)) with (@None jsval).
    destruct (Nat.ltb_spec n 2); [lia | reflexivity].
  - rewrite Hd, Hs, Hr. repeat split.
Qed.

(** ** Where the description fails as stated, continued *)

(** C7 as stated fails: a gateway answers 502 with a page of HTML;
    [JSON.parse] throws, nothing is logged and no body is returned. *)
Lemma customRequest_counterexample :
  let run := customRequest sample_JSON_parse
               (script [Resolved (Response 502 "Bad Gateway"
                                           (JStr "<html>Bad Gateway</html>"))])
               (JStr "/games?id=493057") Absent NoCallback
               (sample_machine false 0) in
  fst run = Throw (SyntaxError "Unexpected token")
  /\ trace (snd run)
     = [Request [("url", JStr "https://api.twitch.tv/helix/games?id=493057");
                 ("headers", JObj [("Client-ID", JStr "cid");
                                   ("Authorization", JStr "Bearer stale")]);
                 ("resolveWithFullResponse", JBool true);
                 ("simple", JBool false)]].
Proof. vm_compute. split; reflexivity. Qed.


(** ** The amended statements at concrete inputs *)


Lemma customRequest_passthrough_witness :
  let run := customRequest sample_JSON_parse (script [not_found])
                           (JStr "games?id=493057") (Object 3) NoCallback
                           headers_machine in
  fst run = Ret (JObj [("message", JStr "not found")])
  /\ self (snd run) = self headers_machine
  /\ requests (snd run) = 1
  /\ (exists sent log_line,
         trace (snd run) = [Request sent; ConsoleLog log_line]
         /\ obj_get "url" sent
            = Some (JStr "https://api.twitch.tv/helix/games?id=493057")
         /\ obj_get "headers" sent
            = Some (JObj [("Client-ID", JStr "cid");
                          ("Authorization", JStr "Bearer mine");
                          ("Accept", JStr "application/json")])).
Proof.
  cbv zeta.
  destruct (customRequest_passthrough sample_JSON_parse (script [not_found])
              "games?id=493057" (Object 3) NoCallback headers_machine)
    as (Hrun & Hself & Hrequests & _); try discriminate.
  cbv zeta in Hrun.
  change (script [not_found] (requests headers_machine))
    with (fun _ : obj => not_found) in Hrun.
  cbv beta in Hrun. unfold not_found in Hrun at 1.
  change (sample_JSON_parse (ToString (JStr (json_field "message" "not found"))))
    with (@inl jsval string (JObj [("message", JStr "not found")])) in Hrun.
  cbv beta iota in Hrun. cbn [statusCode Z.leb andb nullish] in Hrun.
  split_and!; [by rewrite Hrun | exact Hself | exact Hrequests |].
  rewrite Hrun. do 2 eexists. vm_compute. repeat split.
Defined.

